(** * Chess Analyzer: the interaction loop of [main.py]

    A shallow embedding of the event handling, the promotion dialog and
    the main loop of [src/main.py], and the properties of the
    specification stated over it.

    The program keeps its session state in module-level globals; here
    they are the fields of one record, [State], threaded through every
    handler.  The chess rules (python-chess) and the engine (a UCI
    subprocess) are collaborators of the program, not part of it: the
    rules are the operations of the class [ChessRules], the engine's
    answers are part of each frame's input. *)

From Stdlib Require Import ZArith List Bool Lia QArith.
Import ListNotations.
Open Scope Z_scope.

(** ** Values of the chess library used by [main.py] *)

(** [chess.WHITE] is [True], [chess.BLACK] is [False]. *)
Inductive Color : Type := WHITE | BLACK.

(** [chess.PAWN = 1] ... [chess.KING = 6]. *)
Inductive PieceType : Type := PAWN | KNIGHT | BISHOP | ROOK | QUEEN | KING.

Record Piece : Type := mkPiece { piece_type : PieceType; color : Color }.

Definition Color_eqb (a b : Color) : bool :=
  match a, b with
  | WHITE, WHITE | BLACK, BLACK => true
  | _, _ => false
  end.

Definition PieceType_eqb (a b : PieceType) : bool :=
  match a, b with
  | PAWN, PAWN | KNIGHT, KNIGHT | BISHOP, BISHOP
  | ROOK, ROOK | QUEEN, QUEEN | KING, KING => true
  | _, _ => false
  end.

(** A square is an integer; the squares of the board are 0..63. *)
Definition Square : Type := Z.

(** [chess.square(file_index, rank_index)]. *)
Definition square (file_index rank_index : Z) : Square :=
  rank_index * 8 + file_index.

(** [chess.square_file(square)] is [square & 7]. *)
Definition square_file (sq : Square) : Z := Z.land sq 7.

(** [chess.square_rank(square)] is [square >> 3]. *)
Definition square_rank (sq : Square) : Z := Z.shiftr sq 3.

(** [chess.Move(from_square, to_square, promotion=None)]. *)
Record Move : Type := mkMove
  { from_square : Square;
    to_square : Square;
    promotion : option PieceType }.

(** [Move.__bool__]: the null move a1a1 without promotion is false, every
    other move is true.  [main.py] tests moves for truth in
    [not promotion_pending], [if mate_move] and [elif best_move]. *)
Definition Move_bool (m : Move) : bool :=
  negb (from_square m =? 0) || negb (to_square m =? 0)
  || match promotion m with Some _ => true | None => false end.

(** Truth of an optional move: [None] is false. *)
Definition truthy (m : option Move) : bool :=
  match m with
  | Some mv => Move_bool mv
  | None => false
  end.

(** ** The rules collaborator

    What [main.py] uses of [chess.Board]: the starting position
    [chess.Board()], [board.piece_at], the side to move, the test
    [move in board.legal_moves] and [board.push]. *)
Class ChessRules : Type := mkRules
  { Board : Type;
    start_board : Board;
    piece_at : Board -> Square -> option Piece;
    turn : Board -> Color;
    is_legal : Board -> Move -> bool;
    push : Board -> Move -> Board }.

(** ** Constants of the display (lines 11-15) *)

Definition WIDTH : Z := 850.
Definition HEIGHT : Z := 800.
Definition BOARD_SIZE : Z := 800.
Definition SQUARE_SIZE : Z := BOARD_SIZE / 8.
Definition EVAL_BAR_WIDTH : Z := 50.

(** ** Events and session state *)

Inductive Key : Type := K_m | K_p | K_ESCAPE | K_other.

(** The events the loop distinguishes; every other event type is
    [OTHER] and is skipped. *)
Inductive Event : Type :=
| QUIT
| MOUSEBUTTONDOWN (pos : Z * Z)
| KEYDOWN (key : Key)
| OTHER.

(** ** The engine collaborator

    A call to the engine returns or raises ([chess.engine.EngineError],
    [EngineTerminatedError] when the subprocess died). *)
Inductive Reply (A : Type) : Type :=
| Returns (a : A)
| Raises.

Arguments Returns {A} a.
Arguments Raises {A}.

(** The call has returned; and its result, or [d] if it raised. *)
Definition returned {A : Type} (r : Reply A) : bool :=
  match r with Returns _ => true | Raises => false end.

Definition result_or {A : Type} (d : A) (r : Reply A) : A :=
  match r with Returns a => a | Raises => d end.

(** What [main.py] reads of the result of [engine.play]: [result.move],
    and whether [result.info] has a score that is a mate score. *)
Record PlayResult : Type := mkPlayResult
  { move : option Move;
    score_is_mate : bool }.

(** The input of one iteration of [while running]: the events of
    [pygame.event.get()], the clock [time.time()], and what the engine
    answers if it is asked: [analyse_reply] is
    [info['score'].white().score(mate_score=10000)] in centipawns,
    [mate_reply] answers the [play] of line 136, [play_reply] the one of
    line 147. *)
Record Frame : Type := mkFrame
  { events : list Event;
    current_time : Q;
    analyse_reply : Reply Z;
    mate_reply : Reply PlayResult;
    play_reply : Reply PlayResult }.

(** How a run over the given frames stands at its end. *)
Inductive Termination : Type :=
| StillRunning     (* the frames are used up, the loop has not ended *)
| ExitedNormally   (* [running] became false, lines 403-405 were run *)
| Crashed.         (* an exception left the loop body *)

(** The calls that start and stop the engine subprocess. *)
Inductive EngineCall : Type := POPEN_UCI | ENGINE_QUIT.

Section Program.

Context {rules : ChessRules}.

(** The globals of [main.py] (lines 61, 69-73 and 299-302). *)
Record State : Type := mkState
  { board : Board;
    aggressive_mate : bool;
    white_at_bottom : bool;
    selected_square : option Square;
    promotion_pending : option Move;
    show_promotion_dialog : bool;
    running : bool;
    last_analysis_time : Q;
    best_move : option Move;
    evaluation : Q }.

Definition initial_state : State :=
  {| board := start_board;
     aggressive_mate := false;
     white_at_bottom := true;
     selected_square := None;
     promotion_pending := None;
     show_promotion_dialog := false;
     running := true;
     last_analysis_time := 0%Q;
     best_move := None;
     evaluation := 0%Q |}.

Definition set_board (st : State) (b : Board) : State :=
  {| board := b;
     aggressive_mate := aggressive_mate st;
     white_at_bottom := white_at_bottom st;
     selected_square := selected_square st;
     promotion_pending := promotion_pending st;
     show_promotion_dialog := show_promotion_dialog st;
     running := running st;
     last_analysis_time := last_analysis_time st;
     best_move := best_move st;
     evaluation := evaluation st |}.

Definition set_aggressive_mate (st : State) (v : bool) : State :=
  {| board := board st;
     aggressive_mate := v;
     white_at_bottom := white_at_bottom st;
     selected_square := selected_square st;
     promotion_pending := promotion_pending st;
     show_promotion_dialog := show_promotion_dialog st;
     running := running st;
     last_analysis_time := last_analysis_time st;
     best_move := best_move st;
     evaluation := evaluation st |}.

Definition set_white_at_bottom (st : State) (v : bool) : State :=
  {| board := board st;
     aggressive_mate := aggressive_mate st;
     white_at_bottom := v;
     selected_square := selected_square st;
     promotion_pending := promotion_pending st;
     show_promotion_dialog := show_promotion_dialog st;
     running := running st;
     last_analysis_time := last_analysis_time st;
     best_move := best_move st;
     evaluation := evaluation st |}.

Definition set_selected_square (st : State) (v : option Square) : State :=
  {| board := board st;
     aggressive_mate := aggressive_mate st;
     white_at_bottom := white_at_bottom st;
     selected_square := v;
     promotion_pending := promotion_pending st;
     show_promotion_dialog := show_promotion_dialog st;
     running := running st;
     last_analysis_time := last_analysis_time st;
     best_move := best_move st;
     evaluation := evaluation st |}.

Definition set_promotion_pending (st : State) (v : option Move) : State :=
  {| board := board st;
     aggressive_mate := aggressive_mate st;
     white_at_bottom := white_at_bottom st;
     selected_square := selected_square st;
     promotion_pending := v;
     show_promotion_dialog := show_promotion_dialog st;
     running := running st;
     last_analysis_time := last_analysis_time st;
     best_move := best_move st;
     evaluation := evaluation st |}.

Definition set_show_promotion_dialog (st : State) (v : bool) : State :=
  {| board := board st;
     aggressive_mate := aggressive_mate st;
     white_at_bottom := white_at_bottom st;
     selected_square := selected_square st;
     promotion_pending := promotion_pending st;
     show_promotion_dialog := v;
     running := running st;
     last_analysis_time := last_analysis_time st;
     best_move := best_move st;
     evaluation := evaluation st |}.

Definition set_running (st : State) (v : bool) : State :=
  {| board := board st;
     aggressive_mate := aggressive_mate st;
     white_at_bottom := white_at_bottom st;
     selected_square := selected_square st;
     promotion_pending := promotion_pending st;
     show_promotion_dialog := show_promotion_dialog st;
     running := v;
     last_analysis_time := last_analysis_time st;
     best_move := best_move st;
     evaluation := evaluation st |}.

Definition set_last_analysis_time (st : State) (v : Q) : State :=
  {| board := board st;
     aggressive_mate := aggressive_mate st;
     white_at_bottom := white_at_bottom st;
     selected_square := selected_square st;
     promotion_pending := promotion_pending st;
     show_promotion_dialog := show_promotion_dialog st;
     running := running st;
     last_analysis_time := v;
     best_move := best_move st;
     evaluation := evaluation st |}.

Definition set_best_move (st : State) (v : option Move) : State :=
  {| board := board st;
     aggressive_mate := aggressive_mate st;
     white_at_bottom := white_at_bottom st;
     selected_square := selected_square st;
     promotion_pending := promotion_pending st;
     show_promotion_dialog := show_promotion_dialog st;
     running := running st;
     last_analysis_time := last_analysis_time st;
     best_move := v;
     evaluation := evaluation st |}.

Definition set_evaluation (st : State) (v : Q) : State :=
  {| board := board st;
     aggressive_mate := aggressive_mate st;
     white_at_bottom := white_at_bottom st;
     selected_square := selected_square st;
     promotion_pending := promotion_pending st;
     show_promotion_dialog := show_promotion_dialog st;
     running := running st;
     last_analysis_time := last_analysis_time st;
     best_move := best_move st;
     evaluation := v |}.

(** ** [is_promotion_move] (lines 198-206)

    A [Piece] has no truth method of its own, so [if piece] is the test
    that [piece_at] found one. *)
Definition is_promotion_move (b : Board) (move : Move) : bool :=
  match piece_at b (from_square move) with
  | Some piece =>
      if PieceType_eqb (piece_type piece) PAWN then
        if (Color_eqb (color piece) WHITE
              && (square_rank (to_square move) =? 7))
           || (Color_eqb (color piece) BLACK
                 && (square_rank (to_square move) =? 0))
        then true
        else false
      else false
  | None => false
  end.

(** ** [reset_promotion_state] (lines 289-294) *)
Definition reset_promotion_state (st : State) : State :=
  let st := set_promotion_pending st None in
  let st := set_show_promotion_dialog st false in
  set_selected_square st None.

(** ** [handle_promotion_click] (lines 249-285) *)

Definition promotion_pieces : list PieceType := [QUEEN; ROOK; BISHOP; KNIGHT].

Definition dialog_width : Z := 4 * SQUARE_SIZE.
Definition dialog_height : Z := SQUARE_SIZE.
Definition dialog_x : Z := (WIDTH - dialog_width) / 2.
Definition dialog_y : Z := (HEIGHT - dialog_height) / 2.

(** The result is the new state and the returned boolean. *)
Definition handle_promotion_click (st : State) (pos : Z * Z) : State * bool :=
  if negb (show_promotion_dialog st) || negb (truthy (promotion_pending st))
  then (st, false)
  else
    match promotion_pending st with
    | None => (st, false)
    | Some pending =>
        if (dialog_x <=? fst pos) && (fst pos <=? dialog_x + dialog_width)
           && (dialog_y <=? snd pos) && (snd pos <=? dialog_y + dialog_height)
        then
          let piece_index := (fst pos - dialog_x) / SQUARE_SIZE in
          if (0 <=? piece_index)
             && (piece_index <? Z.of_nat (length promotion_pieces))
          then
            let kind := nth (Z.to_nat piece_index) promotion_pieces QUEEN in
            let promotion_move :=
              mkMove (from_square pending) (to_square pending) (Some kind) in
            let st :=
              if is_legal (board st) promotion_move
              then set_board st (push (board st) promotion_move)
              else st in
            (reset_promotion_state st, true)
          else (st, false)
        else (st, false)
    end.

(** ** The [MOUSEBUTTONDOWN] branch of the loop (lines 316-355) *)

(** Lines 322-333: the pixel position to file and rank, and the
    square when both are on the board. *)
Definition click_col (wab : bool) (pos : Z * Z) : Z :=
  let col := (fst pos - EVAL_BAR_WIDTH) / SQUARE_SIZE in
  if negb wab then 7 - col else col.

Definition click_row (wab : bool) (pos : Z * Z) : Z :=
  let row := 7 - (snd pos / SQUARE_SIZE) in
  if negb wab then 7 - row else row.

Definition click_square (wab : bool) (pos : Z * Z) : option Square :=
  let col := click_col wab pos in
  let row := click_row wab pos in
  if (0 <=? col) && (col <? 8) && (0 <=? row) && (row <? 8)
  then Some (square col row)
  else None.

(** Lines 322-355: what follows the dialog check. *)
Definition board_click (st : State) (pos : Z * Z) : State :=
  match click_square (white_at_bottom st) pos with
  | Some sq =>
      match selected_square st with
      | None => set_selected_square st (Some sq)
      | Some sel =>
          let move := mkMove sel sq None in
          if is_promotion_move (board st) move then
            set_show_promotion_dialog (set_promotion_pending st (Some move)) true
          else if is_legal (board st) move then
            let st := set_board st (push (board st) move) in
            let st := set_best_move st None in
            set_selected_square st None
          else
            set_selected_square st None
      end
  | None => st
  end.

(** Lines 316-355.  [continue] after a handled dialog click ends the
    handling of this event. *)
Definition mouse_down (st : State) (pos : Z * Z) : State :=
  if show_promotion_dialog st then
    let (st', handled) := handle_promotion_click st pos in
    if handled then st' else board_click st' pos
  else board_click st pos.

(** Lines 357-370. *)
Definition key_down (st : State) (key : Key) : State :=
  match key with
  | K_m => set_aggressive_mate st (negb (aggressive_mate st))
  | K_p => set_white_at_bottom st (negb (white_at_bottom st))
  | K_ESCAPE =>
      if show_promotion_dialog st
      then reset_promotion_state st
      else set_selected_square st None
  | K_other => st
  end.

(** One iteration of [for event in pygame.event.get()] (lines 312-370). *)
Definition handle_event (st : State) (event : Event) : State :=
  match event with
  | QUIT => set_running st false
  | MOUSEBUTTONDOWN pos => mouse_down st pos
  | KEYDOWN key => key_down st key
  | OTHER => st
  end.

Definition handle_events (st : State) (events : list Event) : State :=
  fold_left handle_event events st.

(** [get_and_highlight_best_move] (lines 132-150); the drawing is left
    out, the returned move is kept. *)
Definition get_and_highlight_best_move (st : State) (f : Frame)
  : Reply (option Move) :=
  let baseline :=
    match play_reply f with
    | Returns result => Returns (move result)
    | Raises => Raises
    end in
  if aggressive_mate st then
    match mate_reply f with
    | Returns result =>
        let mate_move := if score_is_mate result then move result else None in
        if truthy mate_move then Returns mate_move else baseline
    | Raises => Raises
    end
  else baseline.

(** Lines 382-389: the periodic analysis.  Nothing in the loop catches
    an exception, so a raising call ends the frame there.  The clock
    readings of [time.time()] are doubles and line 384 subtracts and
    compares them as doubles; here they are rationals compared
    exactly, which is the same test whenever the two readings and
    their difference are doubles without rounding (as for readings
    that are multiples of 1/16 less than 2^49). *)
Definition analysis (st : State) (f : Frame) : Reply State :=
  if Qlt_le_dec (1 # 10) (current_time f - last_analysis_time st) then
    match analyse_reply f with
    | Returns cp =>
        let st := set_evaluation st (inject_Z cp / 100)%Q in
        match get_and_highlight_best_move st f with
        | Returns m =>
            Returns (set_last_analysis_time (set_best_move st m) (current_time f))
        | Raises => Raises
        end
    | Raises => Raises
    end
  else Returns st.

Record Run : Type := mkRun
  { termination : Termination;
    final : State;
    engine_calls : list EngineCall }.

(** The globals when an exception leaves the analysis of a frame:
    [engine.analyse] has raised, or it has returned, line 387 has
    assigned [evaluation], and the [engine.play] of line 136 or 147 has
    raised. *)
Definition crash_state (st : State) (f : Frame) : State :=
  match analyse_reply f with
  | Returns cp => set_evaluation st (inject_Z cp / 100)%Q
  | Raises => st
  end.

(** Lines 310-404: the loop and the cleanup after it.  [calls] are the
    lifecycle calls made so far. *)
Fixpoint main_loop (st : State) (calls : list EngineCall)
    (frames : list Frame) : Run :=
  match frames with
  | [] => mkRun StillRunning st calls
  | f :: frames' =>
      let st := handle_events st (events f) in
      match analysis st f with
      | Returns st =>
          if running st then main_loop st calls frames'
          else mkRun ExitedNormally st (calls ++ [ENGINE_QUIT])
      | Raises => mkRun Crashed (crash_state st f) calls
      end
  end.

(** The module from line 61 on: the board, the engine (line 66), the
    globals and the loop. *)
Definition main (frames : list Frame) : Run :=
  main_loop initial_state [POPEN_UCI] frames.

(** ** The states of the interaction (spec section 4.3) *)

Definition Idle (st : State) : Prop :=
  selected_square st = None /\ show_promotion_dialog st = false.

Definition PieceSelected (s : Square) (st : State) : Prop :=
  selected_square st = Some s /\ show_promotion_dialog st = false.

(** The dialog is open on a pending move (one that counts as true for
    line 251). *)
Definition PromotionPending (m : Move) (st : State) : Prop :=
  show_promotion_dialog st = true /\ promotion_pending st = Some m
  /\ Move_bool m = true.

(** The square holds a piece of the side to move. *)
Definition own_piece (b : Board) (sq : Square) : bool :=
  match piece_at b sq with
  | Some piece => Color_eqb (color piece) (turn b)
  | None => false
  end.

(** The icon of the [i]-th promotion piece as [draw_promotion_dialog]
    draws it (lines 234-239): a square of side [SQUARE_SIZE] at
    [(dialog_x + i * SQUARE_SIZE, dialog_y)]. *)
Definition on_icon (i : Z) (pos : Z * Z) : Prop :=
  0 <= i < 4
  /\ dialog_x + i * SQUARE_SIZE <= fst pos < dialog_x + (i + 1) * SQUARE_SIZE
  /\ dialog_y <= snd pos < dialog_y + SQUARE_SIZE.

(** The interaction begun by selecting [s] on the board [b] is still
    going on: the board and the selection are the same, and a dialog, if
    open, is about a move from [s]. *)
Definition interaction_on (b : Board) (s : Square) (st : State) : Prop :=
  board st = b
  /\ selected_square st = Some s
  /\ (show_promotion_dialog st = true ->
      exists m : Move, promotion_pending st = Some m /\ from_square m = s).

(** Every square the handlers have stored is a square of the board. *)
Definition in_range (sq : Square) : Prop := 0 <= sq < 64.

Definition squares_in_range (st : State) : Prop :=
  (forall s : Square, selected_square st = Some s -> in_range s)
  /\ (forall m : Move, promotion_pending st = Some m ->
        in_range (from_square m) /\ in_range (to_square m)).

(** The number of [engine.quit()] calls of a run. *)
Definition quit_calls (r : Run) : nat :=
  length (filter (fun c => match c with ENGINE_QUIT => true | POPEN_UCI => false end)
                 (engine_calls r)).

End Program.

(** ** An instance of the rules: standard chess

    The theorems below hold for every [ChessRules].  To run the program
    on concrete clicks the rules have to be concrete too; this module
    gives the rules of standard chess on a board of 64 squares, the way
    python-chess decides them: a move is legal when it is pseudo-legal
    (the piece of the side to move can go there) and does not leave the
    mover's king attacked. *)
Module StandardChess.

Record Position : Type := mkPosition
  { squares : list (option Piece);      (* a1, b1, ..., h8 *)
    side : Color;
    castling_rights : list Square;      (* rooks that may still castle *)
    ep_square : option Square }.

Definition on_board (sq : Square) : bool := (0 <=? sq) && (sq <? 64).

(** [board.piece_at].  python-chess looks the square up in
    [BB_SQUARES], a list of 64 masks, so an index from -64 to -1 counts
    from the end of the list; any other index outside 0..63 raises
    [IndexError], for which there is [None] here (the loop builds no
    square outside 0..63). *)
Definition piece_on (p : Position) (sq : Square) : option Piece :=
  if on_board sq then nth (Z.to_nat sq) (squares p) None
  else if (-64 <=? sq) && (sq <? 0)
       then nth (Z.to_nat (sq + 64)) (squares p) None
       else None.

Fixpoint put {A : Type} (l : list A) (n : nat) (v : A) : list A :=
  match l, n with
  | [], _ => []
  | _ :: l', O => v :: l'
  | x :: l', S n' => x :: put l' n' v
  end.

Definition place (l : list (option Piece)) (sq : Square) (v : option Piece) :=
  put l (Z.to_nat sq) v.

Definition other (c : Color) : Color :=
  match c with WHITE => BLACK | BLACK => WHITE end.

(** Direction of the pawns of a colour, their home rank and last rank. *)
Definition forward (c : Color) : Z := match c with WHITE => 1 | BLACK => -1 end.
Definition home_rank (c : Color) : Z := match c with WHITE => 1 | BLACK => 6 end.
Definition last_rank (c : Color) : Z := match c with WHITE => 7 | BLACK => 0 end.

(** The squares strictly between [cur - step] and [target] are empty. *)
Fixpoint path_clear (p : Position) (fuel : nat) (cur target step : Z) : bool :=
  match fuel with
  | O => false
  | S fuel' =>
      if cur =? target then true
      else match piece_on p cur with
           | Some _ => false
           | None => path_clear p fuel' (cur + step) target step
           end
  end.

Definition slides (p : Position) (a b : Square) : bool :=
  let df := square_file b - square_file a in
  let dr := square_rank b - square_rank a in
  let step := 8 * Z.sgn dr + Z.sgn df in
  path_clear p 8 (a + step) b step.

(** The piece [pc] standing on [a] attacks [b]. *)
Definition attacks (p : Position) (pc : Piece) (a b : Square) : bool :=
  let df := square_file b - square_file a in
  let dr := square_rank b - square_rank a in
  let diagonal := (Z.abs df =? Z.abs dr) && negb (df =? 0) in
  let straight := xorb (df =? 0) (dr =? 0) in
  match piece_type pc with
  | PAWN => (Z.abs df =? 1) && (dr =? forward (color pc))
  | KNIGHT => ((Z.abs df =? 1) && (Z.abs dr =? 2))
              || ((Z.abs df =? 2) && (Z.abs dr =? 1))
  | BISHOP => diagonal && slides p a b
  | ROOK => straight && slides p a b
  | QUEEN => (diagonal || straight) && slides p a b
  | KING => (Z.abs df <=? 1) && (Z.abs dr <=? 1) && negb (a =? b)
  end.

Definition all_squares : list Square := map Z.of_nat (seq 0 64).

Definition attacked_by (p : Position) (c : Color) (sq : Square) : bool :=
  existsb (fun a => match piece_on p a with
                    | Some pc => Color_eqb (color pc) c && attacks p pc a sq
                    | None => false
                    end) all_squares.

Definition is_king_of (c : Color) (o : option Piece) : bool :=
  match o with
  | Some pc => PieceType_eqb (piece_type pc) KING && Color_eqb (color pc) c
  | None => false
  end.

Definition in_check (p : Position) (c : Color) : bool :=
  match find (fun a => is_king_of c (piece_on p a)) all_squares with
  | Some k => attacked_by p (other c) k
  | None => false
  end.

Definition empty (p : Position) (sq : Square) : bool :=
  match piece_on p sq with Some _ => false | None => true end.

Definition has_right (p : Position) (rook : Square) : bool :=
  existsb (Z.eqb rook) (castling_rights p).

(** Castling is the king's move of two files on its home rank. *)
Definition castles (p : Position) (c : Color) (a b : Square) : bool :=
  let base := match c with WHITE => 0 | BLACK => 56 end in
  let safe sq := negb (attacked_by p (other c) sq) in
  (a =? base + 4)
  && (((b =? base + 6) && has_right p (base + 7)
       && empty p (base + 5) && empty p (base + 6)
       && safe (base + 4) && safe (base + 5) && safe (base + 6))
      || ((b =? base + 2) && has_right p base
          && empty p (base + 1) && empty p (base + 2) && empty p (base + 3)
          && safe (base + 4) && safe (base + 3) && safe (base + 2))).

Definition pawn_move (p : Position) (c : Color) (m : Move) : bool :=
  let a := from_square m in
  let b := to_square m in
  let df := square_file b - square_file a in
  let dr := square_rank b - square_rank a in
  let promotes :=
    match promotion m with
    | Some QUEEN | Some ROOK | Some BISHOP | Some KNIGHT => true
    | _ => false
    end in
  let plain := match promotion m with None => true | Some _ => false end in
  (if square_rank b =? last_rank c then promotes else plain)
  && (((df =? 0) && (dr =? forward c) && empty p b)
      || ((df =? 0) && (dr =? 2 * forward c) && (square_rank a =? home_rank c)
          && empty p (a + 8 * forward c) && empty p b)
      || ((Z.abs df =? 1) && (dr =? forward c)
          && (negb (empty p b)
              || match ep_square p with Some e => e =? b | None => false end))).

Definition has_kind (k : PieceType) (o : option Piece) : bool :=
  match o with
  | Some pc => PieceType_eqb (piece_type pc) k
  | None => false
  end.

(** [Board._from_chess960] with [chess960] off: a move of the king from
    e1 or e8 onto a corner of its rank is read as the castling move of
    two files. *)
Definition from_chess960 (p : Position) (a b : Square) : Square :=
  if (a =? 4) && has_kind KING (piece_on p 4) then
    if b =? 7 then 6 else if b =? 0 then 2 else b
  else if (a =? 60) && has_kind KING (piece_on p 60) then
    if b =? 63 then 62 else if b =? 56 then 58 else b
  else b.

(** [Board._to_chess960], which [push] applies: the castling move of two
    files becomes the king's move onto the corner, unless a rook stands
    on the king's target. *)
Definition to_chess960 (p : Position) (a b : Square) : Square :=
  if (a =? 4) && has_kind KING (piece_on p 4) then
    if (b =? 6) && negb (has_kind ROOK (piece_on p 6)) then 7
    else if (b =? 2) && negb (has_kind ROOK (piece_on p 2)) then 0
    else b
  else if (a =? 60) && has_kind KING (piece_on p 60) then
    if (b =? 62) && negb (has_kind ROOK (piece_on p 62)) then 63
    else if (b =? 58) && negb (has_kind ROOK (piece_on p 58)) then 56
    else b
  else b.

(** The square holds a piece of the side to move. *)
Definition own (p : Position) (sq : Square) : bool :=
  match piece_on p sq with
  | Some pc => Color_eqb (color pc) (side p)
  | None => false
  end.

(** [Board.is_pseudo_legal]: the piece is of the side to move; a king's
    move is first tried as castling, in either of its two forms; then
    the target must not hold a piece of the mover, and the piece must
    be able to go there. *)
Definition pseudo_legal (p : Position) (m : Move) : bool :=
  let a := from_square m in
  let b := to_square m in
  match piece_on p a with
  | Some pc =>
      Color_eqb (color pc) (side p) && on_board b
      && match piece_type pc with
         | PAWN => negb (own p b) && pawn_move p (side p) m
         | KING => match promotion m with
                   | None => castles p (side p) a (from_chess960 p a b)
                             || (negb (own p b) && attacks p pc a b)
                   | Some _ => false
                   end
         | _ => match promotion m with
                | None => negb (own p b) && attacks p pc a b
                | Some _ => false
                end
         end
  | None => false
  end.

(** [Board.push] for a pseudo-legal move: the move is made as given,
    without a test of legality.  The king that moves onto a piece of
    its own side castles with it. *)
Definition make_move (p : Position) (m : Move) : Position :=
  let a := from_square m in
  let b := to_chess960 p a (to_square m) in
  match piece_on p a with
  | Some pc =>
      let c := side p in
      let is_pawn := PieceType_eqb (piece_type pc) PAWN in
      let is_king := PieceType_eqb (piece_type pc) KING in
      let base := match c with WHITE => 0 | BLACK => 56 end in
      let s :=
        if is_king && own p b then
          (* castling *)
          let s := place (place (squares p) a None) b None in
          if square_file b <? square_file a
          then place (place s (base + 2) (Some (mkPiece KING c)))
                     (base + 3) (Some (mkPiece ROOK c))
          else place (place s (base + 6) (Some (mkPiece KING c)))
                     (base + 5) (Some (mkPiece ROOK c))
        else
          let placed :=
            match promotion m with
            | Some kind => mkPiece kind c
            | None => mkPiece (piece_type pc) c
            end in
          let s := place (squares p) a None in
          let en_passant :=
            is_pawn
            && match ep_square p with Some e => b =? e | None => false end
            && ((Z.abs (b - a) =? 7) || (Z.abs (b - a) =? 9))
            && empty p b in
          let s := if en_passant then place s (b - 8 * forward c) None else s in
          place s b (Some placed) in
      let keeps rook :=
        negb (rook =? a) && negb (rook =? b)
        && negb (is_king && ((rook =? base) || (rook =? base + 7))) in
      {| squares := s;
         side := other (side p);
         castling_rights := filter keeps (castling_rights p);
         ep_square :=
           if is_pawn && (b - a =? 16) && (square_rank a =? 1)
           then Some (a + 8)
           else if is_pawn && (b - a =? -16) && (square_rank a =? 6)
           then Some (a - 8)
           else None |}
  | None =>
      {| squares := squares p;
         side := other (side p);
         castling_rights := castling_rights p;
         ep_square := None |}
  end.

Definition legal (p : Position) (m : Move) : bool :=
  pseudo_legal p m && negb (in_check (make_move p m) (side p)).

Definition back_rank (c : Color) : list (option Piece) :=
  map (fun t => Some (mkPiece t c))
      [ROOK; KNIGHT; BISHOP; QUEEN; KING; BISHOP; KNIGHT; ROOK].

Definition pawn_rank (c : Color) : list (option Piece) :=
  repeat (Some (mkPiece PAWN c)) 8.

(** [chess.Board()]. *)
Definition starting_position : Position :=
  {| squares := back_rank WHITE ++ pawn_rank WHITE
                ++ repeat None 32
                ++ pawn_rank BLACK ++ back_rank BLACK;
     side := WHITE;
     castling_rights := [0; 7; 56; 63];
     ep_square := None |}.

#[export] Instance rules : ChessRules :=
  {| Board := Position;
     start_board := starting_position;
     piece_at := piece_on;
     turn := side;
     is_legal := legal;
     push := make_move |}.

End StandardChess.

(** ** Screen positions and the inputs of the scenarios *)

(** Where the renderer puts a square (lines 94-108), and the centre of
    that square (lines 170-173). *)
Definition square_origin (wab : bool) (sq : Square) : Z * Z :=
  let col := square_file sq in
  let row := square_rank sq in
  let col := if negb wab then 7 - col else col in
  let row := if negb wab then 7 - row else row in
  (EVAL_BAR_WIDTH + col * SQUARE_SIZE, (7 - row) * SQUARE_SIZE).

Definition square_centre (wab : bool) (sq : Square) : Z * Z :=
  (fst (square_origin wab sq) + SQUARE_SIZE / 2,
   snd (square_origin wab sq) + SQUARE_SIZE / 2).

(** The symbols [draw_promotion_dialog] draws from left to right
    (line 233: Q, R, B, N), and the centre of the [i]-th icon. *)
Definition drawn_icons : list PieceType := [QUEEN; ROOK; BISHOP; KNIGHT].

Definition icon_centre (i : Z) : Z * Z :=
  (dialog_x + i * SQUARE_SIZE + SQUARE_SIZE / 2, dialog_y + SQUARE_SIZE / 2).

(** ** The renderer

    What the drawing functions put on the screen, as the list of their
    drawing calls in order. *)

(** Lines 18-25.  [WHITE] and [BLACK] are also the names of the two
    sides, so the two colours carry a prefix here. *)
Definition RGB : Type := (Z * Z * Z)%type.
Definition RGB_WHITE : RGB := (255, 255, 255).
Definition RGB_BLACK : RGB := (0, 0, 0).
Definition LIGHT_BROWN : RGB := (222, 184, 135).
Definition DARK_BROWN : RGB := (139, 69, 19).
Definition YELLOW : RGB := (255, 255, 0).

(** A rectangle as pygame takes it: left, top, width, height. *)
Definition Rect : Type := (Z * Z * Z * Z)%type.

Inductive DrawCmd : Type :=
| FillRect (c : RGB) (r : Rect)                    (* pygame.draw.rect *)
| Outline (c : RGB) (r : Rect) (width : Z)         (* ... with a width *)
| Blit (kind : PieceType) (side : Color) (x y : Z) (* screen.blit of an image *)
| Caption (centre : Z * Z).                        (* the rendered text *)

(** [range(n)]. *)
Definition range (n : nat) : list Z := map Z.of_nat (seq 0 n).

(** [chess.SQUARES]. *)
Definition SQUARES : list Square := range 64.

(** [draw_board] (lines 77-84). *)
Definition draw_board : list DrawCmd :=
  flat_map
    (fun row =>
       map (fun col =>
              let color :=
                if (row + col) mod 2 =? 0 then LIGHT_BROWN else DARK_BROWN in
              FillRect color
                (EVAL_BAR_WIDTH + col * SQUARE_SIZE, row * SQUARE_SIZE,
                 SQUARE_SIZE, SQUARE_SIZE))
           (range 8))
    (range 8).

(** [draw_eval_bar] (lines 178-188), the two rectangles.  [raw] is the
    integer [int((evaluation + 10) / 20 * bar_height)] of line 182; the
    floating point computation that gives it is not modelled. *)
Definition draw_eval_bar (raw : Z) : list DrawCmd :=
  let bar_height := HEIGHT in
  let white_height := raw in
  let white_height := Z.max 0 (Z.min white_height bar_height) in
  let black_height := bar_height - white_height in
  [ FillRect RGB_WHITE (0, black_height, EVAL_BAR_WIDTH, white_height);
    FillRect RGB_BLACK (0, 0, EVAL_BAR_WIDTH, black_height) ].

(** The pointer is on the square of side [SQUARE_SIZE] whose top left
    corner is [origin]: where an image scaled to
    [(SQUARE_SIZE, SQUARE_SIZE)] (line 51) is blitted at [origin]. *)
Definition in_cell (origin pos : Z * Z) : Prop :=
  fst origin <= fst pos < fst origin + SQUARE_SIZE
  /\ snd origin <= snd pos < snd origin + SQUARE_SIZE.

Section Renderer.

Context {rules : ChessRules}.

(** The keys of the dictionary [pieces] (lines 42-56): the images that
    were found and loaded. *)
Variable pieces : PieceType -> Color -> bool.

(** [draw_pieces] (lines 88-110). *)
Definition draw_pieces (st : State) : list DrawCmd :=
  flat_map
    (fun sq =>
       match piece_at (board st) sq with
       | Some piece =>
           if pieces (piece_type piece) (color piece)
           then [Blit (piece_type piece) (color piece)
                   (fst (square_origin (white_at_bottom st) sq))
                   (snd (square_origin (white_at_bottom st) sq))]
           else []
       | None => []
       end)
    SQUARES.

(** [draw_promotion_dialog] (lines 210-245). *)
Definition draw_promotion_dialog (st : State) : list DrawCmd :=
  if negb (show_promotion_dialog st) || negb (truthy (promotion_pending st))
  then []
  else
    match promotion_pending st with
    | None => []
    | Some pending =>
        match piece_at (board st) (from_square pending) with
        | None => []
        | Some piece =>
            [ FillRect YELLOW (dialog_x, dialog_y, dialog_width, dialog_height);
              Outline RGB_BLACK
                (dialog_x, dialog_y, dialog_width, dialog_height) 3 ]
            ++ flat_map
                 (fun i =>
                    let kind := nth (Z.to_nat i) drawn_icons QUEEN in
                    if pieces kind (color piece)
                    then [Blit kind (color piece)
                            (dialog_x + i * SQUARE_SIZE) dialog_y]
                    else [])
                 (range 4)
            ++ [ Caption (WIDTH / 2, dialog_y - 30) ]
        end
    end.

(** The dialog and its pending move go together, and a pending move
    carries no promotion piece yet. *)
Definition dialog_consistent (st : State) : Prop :=
  (show_promotion_dialog st = true <-> promotion_pending st <> None)
  /\ (forall m : Move, promotion_pending st = Some m -> promotion m = None).

(** The analysis of a frame is due (line 384). *)
Definition analysis_due (st : State) (f : Frame) : Prop :=
  (1 # 10 < current_time f - last_analysis_time st)%Q.

End Renderer.

Module Scenario.

Import StandardChess.

Definition a1 : Square := square 0 0.
Definition a2 : Square := square 0 1.
Definition a4 : Square := square 0 3.
Definition a6 : Square := square 0 5.
Definition a7 : Square := square 0 6.
Definition a8 : Square := square 0 7.
Definition b5 : Square := square 1 4.
Definition b7 : Square := square 1 6.
Definition b8 : Square := square 1 7.
Definition c6 : Square := square 2 5.
Definition e2 : Square := square 4 1.
Definition e4 : Square := square 4 3.
Definition e8 : Square := square 4 7.

(** A click in the middle of a square, White at the bottom. *)
Definition click (sq : Square) : Event :=
  MOUSEBUTTONDOWN (square_centre true sq).

Definition click_icon (i : Z) : Event := MOUSEBUTTONDOWN (icon_centre i).

(** A click on e4 below the dialog rectangle, which ends at y = 450. *)
Definition e4_below_dialog : Z * Z := (500, 470).

(** 1. a4 b5 2. axb5 a6 3. bxa6 Nc6 4. a7, each move as two clicks. *)
Definition seven_plies : list Event :=
  map click [a2; a4; b7; b5; a4; b5; a7; a6; b5; a6; b8; c6; a6; a7].

(** ... 4. .. Rb8: White is to move and a7xb8 promotes. *)
Definition eight_plies : list Event := seven_plies ++ map click [a8; b8].

Definition a7b8q : Move := mkMove a7 b8 (Some QUEEN).

(** A frame in which the engine is asked and suggests [best]. *)
Definition analysed_frame (evs : list Event) (now : Q) (best : Move) : Frame :=
  {| events := evs;
     current_time := now;
     analyse_reply := Returns 0;
     mate_reply := Returns (mkPlayResult None false);
     play_reply := Returns (mkPlayResult (Some best) false) |}.

(** A frame in which the engine subprocess has died. *)
Definition dead_engine_frame (evs : list Event) (now : Q) : Frame :=
  {| events := evs;
     current_time := now;
     analyse_reply := Raises;
     mate_reply := Raises;
     play_reply := Raises |}.

(** One frame for each event, all at the same reading of the clock. *)
Definition frames_of (now : Q) (best : Move) (evs : list Event) : list Frame :=
  map (fun e => analysed_frame [e] now best) evs.

(** The first frame asks the engine, which suggests a2a4.  Eight plies
    are played, one click a frame.  A second later the engine is asked
    again and suggests a7xb8=Q. *)
Definition frames_before_promotion : list Frame :=
  analysed_frame [] 1 (mkMove a2 a4 None)
  :: frames_of 1 (mkMove a2 a4 None) eight_plies
  ++ [analysed_frame [] 2 a7b8q].

(** ... and in the next three frames the user plays it. *)
Definition promotion_frames : list Frame :=
  frames_before_promotion
  ++ frames_of 2 a7b8q [click a7; click b8; click_icon 0].

End Scenario.

(** * Properties *)

Section Properties.

Context {rules : ChessRules}.

(** ** Arithmetic of the screen *)

Lemma constants :
  SQUARE_SIZE = 100 /\ dialog_x = 225 /\ dialog_y = 350
  /\ dialog_width = 400 /\ dialog_height = 100.
Proof. repeat split; reflexivity. Qed.

Lemma square_rank_div (sq : Square) : square_rank sq = sq / 8.
Proof. unfold square_rank. rewrite Z.shiftr_div_pow2 by lia. reflexivity. Qed.

Lemma square_file_mod (sq : Square) : square_file sq = sq mod 8.
Proof.
  unfold square_file. change 7 with (Z.ones 3).
  rewrite Z.land_ones by lia. reflexivity.
Qed.

Lemma square_rank_square (col row : Z) :
  0 <= col < 8 -> square_rank (square col row) = row.
Proof.
  intros H. rewrite square_rank_div. unfold square.
  rewrite Z.div_add_l by lia. rewrite Z.div_small by lia. lia.
Qed.

Lemma square_file_square (col row : Z) :
  0 <= col < 8 -> square_file (square col row) = col.
Proof.
  intros H. rewrite square_file_mod. unfold square.
  rewrite Z.add_comm, Z.mod_add by lia. apply Z.mod_small. lia.
Qed.

Lemma click_col_range (wab : bool) (pos : Z * Z) :
  0 <= click_col wab pos < 8 ->
  EVAL_BAR_WIDTH <= fst pos < EVAL_BAR_WIDTH + BOARD_SIZE.
Proof.
  unfold click_col, EVAL_BAR_WIDTH, BOARD_SIZE.
  change SQUARE_SIZE with 100.
  pose proof (Z.div_mod (fst pos - 50) 100 ltac:(lia)) as E.
  pose proof (Z.mod_pos_bound (fst pos - 50) 100 ltac:(lia)) as B.
  destruct wab; cbv zeta; cbn [negb]; intros; lia.
Qed.

Lemma click_row_range (wab : bool) (pos : Z * Z) :
  0 <= click_row wab pos < 8 -> 0 <= snd pos < BOARD_SIZE.
Proof.
  unfold click_row, BOARD_SIZE.
  change SQUARE_SIZE with 100.
  pose proof (Z.div_mod (snd pos) 100 ltac:(lia)) as E.
  pose proof (Z.mod_pos_bound (snd pos) 100 ltac:(lia)) as B.
  destruct wab; cbv zeta; cbn [negb]; intros; lia.
Qed.

Lemma click_square_Some (wab : bool) (pos : Z * Z) (sq : Square) :
  click_square wab pos = Some sq ->
  0 <= click_col wab pos < 8 /\ 0 <= click_row wab pos < 8
  /\ sq = square (click_col wab pos) (click_row wab pos).
Proof.
  unfold click_square.
  destruct (0 <=? click_col wab pos) eqn:A; simpl; try discriminate.
  destruct (click_col wab pos <? 8) eqn:B; simpl; try discriminate.
  destruct (0 <=? click_row wab pos) eqn:C; simpl; try discriminate.
  destruct (click_row wab pos <? 8) eqn:D; simpl; try discriminate.
  intros E. injection E as <-. lia.
Qed.

Lemma handle_promotion_click_cases (st : State) (pos : Z * Z) :
  handle_promotion_click st pos = (st, false)
  \/ exists (m : Move) (kind : PieceType),
       promotion_pending st = Some m
       /\ handle_promotion_click st pos =
          (reset_promotion_state
             (if is_legal (board st)
                   (mkMove (from_square m) (to_square m) (Some kind))
              then set_board st
                     (push (board st)
                        (mkMove (from_square m) (to_square m) (Some kind)))
              else st), true).
Proof.
  unfold handle_promotion_click.
  destruct (negb (show_promotion_dialog st)
            || negb (truthy (promotion_pending st))); [now left|].
  destruct (promotion_pending st) as [m|]; [|now left].
  destruct ((dialog_x <=? fst pos) && (fst pos <=? dialog_x + dialog_width)
            && (dialog_y <=? snd pos) && (snd pos <=? dialog_y + dialog_height));
    [|now left].
  destruct ((0 <=? (fst pos - dialog_x) / SQUARE_SIZE)
            && ((fst pos - dialog_x) / SQUARE_SIZE
                <? Z.of_nat (length promotion_pieces))); [|now left].
  right. eexists m, _. split; reflexivity.
Qed.

Lemma click_square_in_range (wab : bool) (pos : Z * Z) (sq : Square) :
  click_square wab pos = Some sq -> in_range sq.
Proof.
  intros E. destruct (click_square_Some _ _ _ E) as (Hc & Hr & ->).
  unfold in_range, square. lia.
Qed.

Lemma squares_in_range_step (st : State) (e : Event) :
  squares_in_range st -> squares_in_range (handle_event st e).
Proof.
  intros (Hsel & Hpend).
  assert (Hreset : forall st0 : State,
             squares_in_range (reset_promotion_state st0)).
  { intros st0. split; simpl; intros ? [=]. }
  assert (Hclick : forall pos, squares_in_range (board_click st pos)).
  { intros pos. unfold board_click.
    destruct (click_square (white_at_bottom st) pos) as [sq|] eqn:E;
      [|split; assumption].
    apply click_square_in_range in E.
    destruct (selected_square st) as [sel|] eqn:S.
    - destruct (is_promotion_move (board st) (mkMove sel sq None)).
      + split; simpl.
        * rewrite S. exact Hsel.
        * intros m [= <-]. simpl. split; [now apply Hsel|exact E].
      + destruct (is_legal (board st) (mkMove sel sq None));
          (split; simpl; [intros ? [=]|exact Hpend]).
    - split; simpl; [intros s [= <-]; exact E|exact Hpend]. }
  destruct e as [|pos|[| | |]|]; simpl; try (split; assumption).
  - unfold mouse_down. destruct (show_promotion_dialog st); [|apply Hclick].
    destruct (handle_promotion_click_cases st pos) as [E|(m & kind & _ & E)];
      rewrite E; [apply Hclick|apply Hreset].
  - destruct (show_promotion_dialog st); [apply Hreset|].
    split; simpl; [intros ? [=]|exact Hpend].
Qed.

Lemma squares_in_range_run (events : list Event) :
  forall st : State,
    squares_in_range st -> squares_in_range (handle_events st events).
Proof.
  induction events as [|e events IH]; intros st H; simpl.
  - exact H.
  - apply IH, squares_in_range_step, H.
Qed.

(** [C10]  For every pointer position and either orientation the board
    click handler ignores the click (no square is built and the state is
    left as it is), or the file and the rank it computed are both in
    0..7, the square built from them is in 0..63 and has that file and
    rank, and the pointer is on the board: at or right of the evaluation
    bar's 50 pixels, left of the right edge and above the bottom edge.
    So a click over the evaluation bar, where the floor division gives
    file -1 (or 8 when the board is flipped), and a click past an edge
    are among the ignored ones.  And after any events from the start,
    the selected square and the squares of the pending move are in
    0..63. *)
Theorem click_builds_squares_in_range (st : State) (pos : Z * Z)
    (events : list Event) :
  squares_in_range (handle_events initial_state events)
  /\
  ((click_square (white_at_bottom st) pos = None /\ board_click st pos = st)
  \/ (exists col row : Z,
        col = click_col (white_at_bottom st) pos
        /\ row = click_row (white_at_bottom st) pos
        /\ 0 <= col < 8 /\ 0 <= row < 8
        /\ click_square (white_at_bottom st) pos = Some (square col row)
        /\ 0 <= square col row < 64
        /\ square_file (square col row) = col
        /\ square_rank (square col row) = row
        /\ EVAL_BAR_WIDTH <= fst pos < EVAL_BAR_WIDTH + BOARD_SIZE
        /\ 0 <= snd pos < BOARD_SIZE)).
Proof.
  split.
  { apply squares_in_range_run. split; simpl; intros ? [=]. }
  destruct (click_square (white_at_bottom st) pos) as [sq|] eqn:E.
  - right. destruct (click_square_Some _ _ _ E) as (Hc & Hr & ->).
    exists (click_col (white_at_bottom st) pos),
           (click_row (white_at_bottom st) pos).
    repeat split; try lia.
    + unfold square. lia.
    + unfold square. lia.
    + now apply square_file_square.
    + now apply square_rank_square.
    + now apply (click_col_range (white_at_bottom st)).
    + now apply (click_col_range (white_at_bottom st)).
    + now apply (click_row_range (white_at_bottom st)).
    + now apply (click_row_range (white_at_bottom st)).
  - left. split; [reflexivity|]. unfold board_click. now rewrite E.
Qed.

(** ** [is_promotion_move] *)

Lemma Color_eqb_eq (a b : Color) : Color_eqb a b = true <-> a = b.
Proof. destruct a, b; simpl; split; congruence. Qed.

Lemma PieceType_eqb_eq (a b : PieceType) : PieceType_eqb a b = true <-> a = b.
Proof. destruct a, b; simpl; split; congruence. Qed.

(** [C9]  For every board and every move, [is_promotion_move] is true
    exactly when the from-square holds a pawn and the to-square is on
    rank 7 for a White pawn, on rank 0 for a Black pawn; with no piece
    or another piece on the from-square, or another rank, it is false. *)
Theorem is_promotion_move_iff (b : Board) (m : Move) :
  is_promotion_move b m = true <->
  exists piece : Piece,
    piece_at b (from_square m) = Some piece
    /\ piece_type piece = PAWN
    /\ ((color piece = WHITE /\ square_rank (to_square m) = 7)
        \/ (color piece = BLACK /\ square_rank (to_square m) = 0)).
Proof.
  unfold is_promotion_move. split.
  - destruct (piece_at b (from_square m)) as [piece|]; [|discriminate].
    destruct (PieceType_eqb (piece_type piece) PAWN) eqn:T; [|discriminate].
    apply PieceType_eqb_eq in T.
    intros H. exists piece. split; [reflexivity|]. split; [assumption|].
    destruct (color piece); simpl in H.
    + left. split; [reflexivity|].
      destruct (square_rank (to_square m) =? 7) eqn:R; [lia|discriminate].
    + right. split; [reflexivity|].
      destruct (square_rank (to_square m) =? 0) eqn:R; [lia|discriminate].
  - intros (piece & -> & T & H). rewrite T. simpl.
    destruct H as [[-> R]|[-> R]]; rewrite R; reflexivity.
Qed.

(** ** The promotion dialog *)

Lemma on_icon_inside (i : Z) (pos : Z * Z) :
  on_icon i pos ->
  (dialog_x <=? fst pos) && (fst pos <=? dialog_x + dialog_width)
  && (dialog_y <=? snd pos) && (snd pos <=? dialog_y + dialog_height) = true
  /\ (fst pos - dialog_x) / SQUARE_SIZE = i.
Proof.
  unfold on_icon. destruct constants as (-> & -> & -> & -> & ->).
  intros (Hi & Hx & Hy). split.
  - rewrite !andb_true_iff, !Z.leb_le. lia.
  - symmetry. apply Z.div_unique with (r := fst pos - 225 - 100 * i); lia.
Qed.

Lemma handle_promotion_click_on_icon (st : State) (m : Move) (i : Z)
    (pos : Z * Z) :
  PromotionPending m st -> on_icon i pos ->
  let promotion_move :=
    mkMove (from_square m) (to_square m)
           (Some (nth (Z.to_nat i) drawn_icons QUEEN)) in
  handle_promotion_click st pos =
  (reset_promotion_state
     (if is_legal (board st) promotion_move
      then set_board st (push (board st) promotion_move)
      else st), true).
Proof.
  intros (Hs & Hp & Hb) Hi. destruct (on_icon_inside i pos Hi) as (Hin & Hidx).
  unfold handle_promotion_click. rewrite Hs, Hp. cbn [negb orb truthy].
  rewrite Hb. cbn [negb]. rewrite Hin, Hidx.
  destruct Hi as (Hi & _).
  replace ((0 <=? i) && (i <? Z.of_nat (length promotion_pieces))) with true
    by (symmetry; rewrite andb_true_iff, Z.leb_le, Z.ltb_lt; simpl; lia).
  reflexivity.
Qed.

(** A click that [handle_promotion_click] does not handle leaves the
    state to it as it was. *)
Lemma handle_promotion_click_unhandled (st : State) (pos : Z * Z) :
  snd (handle_promotion_click st pos) = false ->
  fst (handle_promotion_click st pos) = st.
Proof.
  unfold handle_promotion_click.
  repeat match goal with
         | |- context [if ?c then _ else _] => destruct c
         | |- context [match ?o with Some _ => _ | None => _ end] => destruct o
         end; simpl; congruence.
Qed.

(** [C7]  With the dialog open on the pending move [m], a click on the
    [i]-th icon builds the move from [m]'s squares with the piece kind
    drawn there (queen, rook, bishop, knight); the board becomes the one
    after that move when it is legal and stays as it is otherwise; in
    both cases [promotion_pending], [show_promotion_dialog] and
    [selected_square] are all cleared in this one transition, the state
    is [Idle], and no other field changes. *)
Theorem promotion_icon_click (st : State) (m : Move) (i : Z) (pos : Z * Z) :
  PromotionPending m st -> on_icon i pos ->
  let promotion_move :=
    mkMove (from_square m) (to_square m)
           (Some (nth (Z.to_nat i) drawn_icons QUEEN)) in
  let st' := handle_event st (MOUSEBUTTONDOWN pos) in
  board st' = (if is_legal (board st) promotion_move
               then push (board st) promotion_move
               else board st)
  /\ promotion_pending st' = None
  /\ show_promotion_dialog st' = false
  /\ selected_square st' = None
  /\ Idle st'
  /\ aggressive_mate st' = aggressive_mate st
  /\ white_at_bottom st' = white_at_bottom st
  /\ running st' = running st
  /\ last_analysis_time st' = last_analysis_time st
  /\ best_move st' = best_move st
  /\ evaluation st' = evaluation st.
Proof.
  intros H Hi promotion_move st'.
  assert (E : st' = reset_promotion_state
                      (if is_legal (board st) promotion_move
                       then set_board st (push (board st) promotion_move)
                       else st)).
  { subst st'. unfold handle_event, mouse_down.
    destruct H as (Hs & Hp & Hb). rewrite Hs.
    rewrite (handle_promotion_click_on_icon st m i pos (conj Hs (conj Hp Hb)) Hi).
    reflexivity. }
  rewrite E. unfold Idle.
  destruct (is_legal (board st) promotion_move); simpl; repeat split; reflexivity.
Qed.

(** ** Clicks on the board *)

Lemma mouse_down_dialog_closed (st : State) (pos : Z * Z) :
  show_promotion_dialog st = false ->
  handle_event st (MOUSEBUTTONDOWN pos) = board_click st pos.
Proof. intros H. unfold handle_event, mouse_down. now rewrite H. Qed.

Lemma board_click_idle (st : State) (pos : Z * Z) (sq : Square) :
  Idle st ->
  click_square (white_at_bottom st) pos = Some sq ->
  handle_event st (MOUSEBUTTONDOWN pos) = set_selected_square st (Some sq).
Proof.
  intros (Hsel & Hshow) Hsq.
  rewrite mouse_down_dialog_closed by assumption.
  unfold board_click. now rewrite Hsq, Hsel.
Qed.

(** With the dialog open, a click that [handle_promotion_click] does
    not handle is handled as a board click; the board handling never
    closes the dialog. *)
Lemma unhandled_click_falls_through (st : State) (pos : Z * Z) :
  show_promotion_dialog st = true ->
  snd (handle_promotion_click st pos) = false ->
  handle_event st (MOUSEBUTTONDOWN pos) = board_click st pos.
Proof.
  intros Hshow Hun. unfold handle_event, mouse_down. rewrite Hshow.
  pose proof (handle_promotion_click_unhandled st pos Hun) as E.
  destruct (handle_promotion_click st pos) as [st' handled].
  simpl in *. now subst.
Qed.

Lemma board_click_keeps_dialog (st : State) (pos : Z * Z) :
  show_promotion_dialog st = true ->
  show_promotion_dialog (board_click st pos) = true.
Proof.
  intros Hshow. unfold board_click.
  repeat match goal with
         | |- context [match ?c with _ => _ end] => destruct c; simpl
         end; auto.
Qed.

(** [C5], amended.  In [Idle] a click on a board square selects that
    square, whatever stands on it: the state becomes [PieceSelected] on
    that square and nothing else changes.  A click off the board
    changes nothing: the state is the same and still [Idle]. *)
Theorem idle_click_selects (st : State) (pos : Z * Z) :
  Idle st ->
  let st' := handle_event st (MOUSEBUTTONDOWN pos) in
  match click_square (white_at_bottom st) pos with
  | Some sq =>
      st' = set_selected_square st (Some sq) /\ PieceSelected sq st'
      /\ board st' = board st
  | None => st' = st /\ Idle st'
  end.
Proof.
  intros Hidle st'. subst st'.
  destruct (click_square (white_at_bottom st) pos) as [sq|] eqn:Hsq.
  - rewrite (board_click_idle st pos sq Hidle Hsq).
    destruct Hidle as (_ & Hshow). unfold PieceSelected. simpl.
    repeat split. assumption.
  - destruct Hidle as (Hsel & Hshow).
    rewrite mouse_down_dialog_closed by assumption.
    unfold board_click, Idle. rewrite Hsq. repeat split; assumption.
Qed.

(** [C8]  From [PieceSelected s], a click on a square [d] for which the
    move from [s] to [d] is legal and is no promotion candidate makes
    that move on the board, sets [best_move] to null and clears the
    selection: the state is [Idle], and no other field changes. *)
Theorem legal_move_click (st : State) (s d : Square) (pos : Z * Z) :
  PieceSelected s st ->
  click_square (white_at_bottom st) pos = Some d ->
  is_promotion_move (board st) (mkMove s d None) = false ->
  is_legal (board st) (mkMove s d None) = true ->
  let st' := handle_event st (MOUSEBUTTONDOWN pos) in
  board st' = push (board st) (mkMove s d None)
  /\ best_move st' = None
  /\ selected_square st' = None
  /\ Idle st'
  /\ promotion_pending st' = promotion_pending st
  /\ aggressive_mate st' = aggressive_mate st
  /\ white_at_bottom st' = white_at_bottom st
  /\ running st' = running st
  /\ last_analysis_time st' = last_analysis_time st
  /\ evaluation st' = evaluation st.
Proof.
  intros (Hsel & Hshow) Hsq Hprom Hlegal st'. subst st'.
  rewrite mouse_down_dialog_closed by assumption.
  unfold board_click. rewrite Hsq, Hsel, Hprom, Hlegal. unfold Idle. simpl.
  repeat split. assumption.
Qed.


(** ** An interaction begun on a square that is not the mover's *)

Section BadSelection.

(** What the program relies on from the rules: a legal move starts on a
    square that holds a piece of the side to move. *)
Hypothesis legal_moves_own :
  forall (b : Board) (m : Move),
    is_legal b m = true -> own_piece b (from_square m) = true.

Variables (b : Board) (s : Square).
Hypothesis not_own : own_piece b s = false.

Lemma move_from_s_illegal (d : Square) (k : option PieceType) :
  is_legal b (mkMove s d k) = false.
Proof.
  destruct (is_legal b (mkMove s d k)) eqn:E; [|reflexivity].
  apply legal_moves_own in E. simpl in E. congruence.
Qed.

(** The event touched neither the board nor the selection nor the
    dialog: the interaction goes on. *)
Ltac goes_on := split; [assumption|]; right; repeat split; assumption.

Lemma interaction_step (st : State) (e : Event) :
  interaction_on b s st ->
  board (handle_event st e) = b
  /\ (selected_square (handle_event st e) = None
      \/ interaction_on b s (handle_event st e)).
Proof.
  intros (Hb & Hsel & Hdlg).
  assert (Hclick : forall pos,
             board (board_click st pos) = b
             /\ (selected_square (board_click st pos) = None
                 \/ interaction_on b s (board_click st pos))).
  { intros pos. unfold board_click.
    destruct (click_square (white_at_bottom st) pos) as [sq|].
    - rewrite Hsel, Hb, move_from_s_illegal.
      destruct (is_promotion_move b (mkMove s sq None)); simpl.
      + split; [assumption|]. right. repeat split; try assumption.
        intros _. now exists (mkMove s sq None).
      + split; [assumption|]. now left.
    - goes_on. }
  destruct e as [|pos|[| | |]|]; simpl.
  - goes_on.
  - unfold mouse_down.
    destruct (show_promotion_dialog st) eqn:Hshow; [|apply Hclick].
    destruct (handle_promotion_click_cases st pos) as [E|(m & kind & Hp & E)];
      rewrite E.
    + apply Hclick.
    + destruct (Hdlg eq_refl) as (m' & Hp' & Hfrom).
      assert (m' = m) by congruence. subst m'.
      rewrite Hb, Hfrom, move_from_s_illegal. simpl.
      split; [assumption|]. now left.
  - goes_on.
  - goes_on.
  - destruct (show_promotion_dialog st); simpl; split; auto.
  - goes_on.
  - goes_on.
Qed.

Lemma interaction_run (events : list Event) :
  forall st : State,
    interaction_on b s st ->
    (forall n : nat, (n < length events)%nat ->
       selected_square (handle_events st (firstn n events)) <> None) ->
    board (handle_events st events) = b.
Proof.
  induction events as [|e events IH]; intros st Hst Hkeep.
  - apply Hst.
  - destruct (interaction_step st e Hst) as (Hb & Hnext).
    destruct events as [|e' events'].
    + exact Hb.
    + change (handle_events st (e :: e' :: events'))
        with (handle_events (handle_event st e) (e' :: events')).
      apply IH.
      * destruct Hnext as [Hnone|Hon]; [|assumption].
        exfalso. apply (Hkeep 1%nat); [simpl; lia|exact Hnone].
      * intros n Hn. apply (Hkeep (S n)). simpl in *. lia.
Qed.

End BadSelection.

(** Take rules under which a legal move starts on a square holding
    a piece of the side to move.  From [Idle], let a click select a
    square [s] that is empty or holds a piece of the other side.  Then
    every later event of that interaction, that is every event handled
    while the selection made by that click is still in place (any board
    click, any click in or outside a promotion dialog the interaction
    has opened, any key) and the event that ends it, leaves the board
    as it was: no move is pushed. *)
Theorem foreign_selection_never_moves
    (legal_moves_own :
       forall (b : Board) (m : Move),
         is_legal b m = true -> own_piece b (from_square m) = true)
    (st : State) (pos : Z * Z) (s : Square) (events : list Event) :
  Idle st ->
  click_square (white_at_bottom st) pos = Some s ->
  own_piece (board st) s = false ->
  (forall n : nat, (n < length events)%nat ->
     selected_square
       (handle_events st (MOUSEBUTTONDOWN pos :: firstn n events)) <> None) ->
  board (handle_events st (MOUSEBUTTONDOWN pos :: events)) = board st.
Proof.
  intros Hidle Hsq Hown Hkeep.
  change (handle_events st (MOUSEBUTTONDOWN pos :: events))
    with (handle_events (handle_event st (MOUSEBUTTONDOWN pos)) events).
  pose proof (board_click_idle st pos s Hidle Hsq) as E.
  apply (interaction_run legal_moves_own (board st) s Hown).
  - rewrite E. destruct Hidle as (_ & Hshow).
    repeat split; simpl; try reflexivity. rewrite Hshow. discriminate.
  - intros n Hn. apply (Hkeep n Hn).
Qed.

(** ** The engine subprocess *)

Lemma main_loop_calls (frames : list Frame) :
  forall (st : State) (calls : list EngineCall),
    engine_calls (main_loop st calls frames) =
    match termination (main_loop st calls frames) with
    | ExitedNormally => calls ++ [ENGINE_QUIT]
    | StillRunning | Crashed => calls
    end.
Proof.
  induction frames as [|f frames IH]; intros st calls; simpl.
  - reflexivity.
  - destruct (analysis (handle_events st (events f)) f) as [st'|]; simpl.
    + destruct (running st'); [apply IH|reflexivity].
    + reflexivity.
Qed.

(** [C4], amended.  The engine is started once, before the loop.
    [engine.quit()] is called once, after the loop, when the loop has
    ended because [running] became false; when an exception has left
    the loop body it has not been called at all, and neither while the
    loop is still going. *)
Theorem engine_quit_only_on_normal_exit (frames : list Frame) :
  engine_calls (main frames) =
  match termination (main frames) with
  | ExitedNormally => [POPEN_UCI; ENGINE_QUIT]
  | StillRunning | Crashed => [POPEN_UCI]
  end
  /\ quit_calls (main frames) =
     match termination (main frames) with
     | ExitedNormally => 1%nat
     | StillRunning | Crashed => 0%nat
     end.
Proof.
  unfold quit_calls, main. rewrite main_loop_calls.
  destruct (termination (main_loop initial_state [POPEN_UCI] frames));
    split; reflexivity.
Qed.

(** The user's quit: [running] is only ever set to false, so a frame
    that has a [QUIT] event and whose engine calls return ends the loop
    normally. *)
Lemma running_kept (st : State) (e : Event) :
  running (handle_event st e) =
  match e with QUIT => false | _ => running st end.
Proof.
  destruct e as [|pos|[| | |]|]; simpl; try reflexivity.
  - unfold mouse_down, board_click.
    destruct (show_promotion_dialog st).
    + destruct (handle_promotion_click_cases st pos) as [E|(m & kind & _ & E)];
        rewrite E.
      * repeat match goal with
               | |- context [match ?c with _ => _ end] => destruct c; simpl
               end; reflexivity.
      * destruct (is_legal _ _); reflexivity.
    + repeat match goal with
             | |- context [match ?c with _ => _ end] => destruct c; simpl
             end; reflexivity.
  - destruct (show_promotion_dialog st); reflexivity.
Qed.

Lemma quit_event_stops (events : list Event) :
  forall st : State,
    In QUIT events \/ running st = false ->
    running (handle_events st events) = false.
Proof.
  induction events as [|e events IH]; intros st H; simpl.
  - destruct H as [[]|H]. exact H.
  - apply IH. rewrite running_kept.
    destruct H as [[->|H]|H]; [now right|now left|right; now destruct e].
Qed.

Lemma analysis_keeps_running (st st' : State) (f : Frame) :
  analysis st f = Returns st' -> running st' = running st.
Proof.
  unfold analysis.
  destruct (Qlt_le_dec _ _); [|intros [= <-]; reflexivity].
  destruct (analyse_reply f); [|discriminate].
  destruct (get_and_highlight_best_move _ f); [|discriminate].
  intros [= <-]. reflexivity.
Qed.

Lemma user_quit_exits (st st' : State) (calls : list EngineCall) (f : Frame)
    (frames : list Frame) :
  In QUIT (events f) ->
  analysis (handle_events st (events f)) f = Returns st' ->
  main_loop st calls (f :: frames) =
  mkRun ExitedNormally st' (calls ++ [ENGINE_QUIT]).
Proof.
  intros Hq Ha. simpl. rewrite Ha.
  rewrite (analysis_keeps_running _ _ _ Ha), quit_event_stops by auto.
  reflexivity.
Qed.

End Properties.

(** * Runs of the program on the rules of standard chess *)

Import StandardChess Scenario.

(** Under the rules of standard chess a legal move starts on a square
    that holds a piece of the side to move. *)
Lemma standard_legal_moves_own (p : Position) (m : Move) :
  is_legal p m = true -> own_piece p (from_square m) = true.
Proof.
  unfold own_piece. simpl. unfold legal, pseudo_legal.
  destruct (piece_on p (from_square m)) as [pc|]; simpl; [|discriminate].
  destruct (Color_eqb (color pc) (side p)); simpl; [reflexivity|discriminate].
Qed.

(** A click in the middle of the square the renderer draws is a click
    on that square. *)
Lemma click_square_centre (wab : bool) (col row : Z) :
  0 <= col < 8 -> 0 <= row < 8 ->
  click_square wab (square_centre wab (square col row)) = Some (square col row).
Proof.
  intros Hc Hr.
  assert (A : forall k, 0 <= k < 8 -> (k * 100 + 50) / 100 = k).
  { intros k Hk. symmetry. apply Z.div_unique with (r := 50); lia. }
  unfold click_square, click_col, click_row, square_centre, square_origin.
  rewrite square_file_square, square_rank_square by assumption.
  unfold EVAL_BAR_WIDTH. change SQUARE_SIZE with 100. change (100 / 2) with 50.
  cbn [fst snd].
  destruct wab; cbn [negb].
  - replace (50 + col * 100 + 50 - 50) with (col * 100 + 50) by lia.
    rewrite !A by lia.
    replace (7 - (7 - row)) with row by lia.
    replace ((0 <=? col) && (col <? 8) && (0 <=? row) && (row <? 8)) with true
      by (symmetry; rewrite !andb_true_iff, !Z.leb_le, !Z.ltb_lt; lia).
    reflexivity.
  - replace (50 + (7 - col) * 100 + 50 - 50) with ((7 - col) * 100 + 50) by lia.
    rewrite !A by lia.
    replace (7 - (7 - col)) with col by lia.
    replace (7 - (7 - (7 - (7 - row)))) with row by lia.
    replace ((0 <=? col) && (col <? 8) && (0 <=? row) && (row <? 8)) with true
      by (symmetry; rewrite !andb_true_iff, !Z.leb_le, !Z.ltb_lt; lia).
    reflexivity.
Qed.

(** The scenario of [C8]: the starting position, the engine has
    suggested e2e4, the user clicks e2 and then e4.  The board is the
    one after e2e4, [best_move] is null and the state is [Idle]. *)
Lemma e2_e4_played :
  let st0 := final (main [analysed_frame [] 1 (mkMove e2 e4 None)]) in
  let st := handle_event st0 (click e2) in
  let st' := handle_event st (click e4) in
  (board st0 = start_board /\ best_move st0 = Some (mkMove e2 e4 None)
   /\ PieceSelected e2 st)
  /\ board st' = push start_board (mkMove e2 e4 None)
  /\ best_move st' = None
  /\ Idle st'.
Proof.
  intros st0 st st'.
  assert (H1 : PieceSelected e2 st) by (vm_compute; split; reflexivity).
  assert (H2 : click_square (white_at_bottom st) (square_centre true e4)
               = Some e4) by (vm_compute; reflexivity).
  assert (H3 : is_promotion_move (board st) (mkMove e2 e4 None) = false)
    by (vm_compute; reflexivity).
  assert (H4 : is_legal (board st) (mkMove e2 e4 None) = true)
    by (vm_compute; reflexivity).
  destruct (legal_move_click st e2 e4 (square_centre true e4) H1 H2 H3 H4)
    as (Hb & Hbest & _ & Hidle & _).
  split; [split; [vm_compute; reflexivity
                 |split; [vm_compute; reflexivity|exact H1]]|].
  split; [exact Hb|]. split; [exact Hbest|exact Hidle].
Defined.

(** The scenario of [C7]: after eight plies a White pawn stands on a7
    and the rook on b8 can be taken; the user clicks a7, b8 and the
    queen icon.  The pawn is promoted, the three fields are cleared. *)
Lemma a7_b8_queen_played :
  let st := handle_events initial_state (eight_plies ++ [click a7; click b8]) in
  let st' := handle_event st (click_icon 0) in
  (PromotionPending (mkMove a7 b8 None) st /\ on_icon 0 (icon_centre 0))
  /\ board st' = push (board st) a7b8q
  /\ piece_at (board st') b8 = Some (mkPiece QUEEN WHITE)
  /\ promotion_pending st' = None
  /\ show_promotion_dialog st' = false
  /\ selected_square st' = None.
Proof.
  intros st st'.
  assert (H1 : PromotionPending (mkMove a7 b8 None) st)
    by (vm_compute; repeat split; reflexivity).
  assert (H2 : on_icon 0 (icon_centre 0))
    by (vm_compute; repeat split; discriminate).
  destruct (promotion_icon_click st (mkMove a7 b8 None) 0 (icon_centre 0) H1 H2)
    as (_ & Hp & Hs & Hsel & _).
  split; [split; assumption|].
  split; [vm_compute; reflexivity|].
  split; [vm_compute; reflexivity|].
  split; [exact Hp|]. split; [exact Hs|exact Hsel].
Defined.

(** [C5] as stated fails: in the starting position e4 is empty, and a
    click on it in [Idle] selects it. *)
Lemma empty_square_is_selected :
  ~ (let st := initial_state in
     let st' := handle_event st (click e4) in
     Idle st ->
     click_square (white_at_bottom st) (square_centre true e4) = Some e4 ->
     (PieceSelected e4 st' <-> own_piece (board st) e4 = true)).
Proof.
  intros H.
  assert (H1 : Idle initial_state) by (split; reflexivity).
  destruct (H H1 eq_refl) as (Hto & _).
  assert (H2 : PieceSelected e4 (handle_event initial_state (click e4)))
    by (vm_compute; split; reflexivity).
  specialize (Hto H2). vm_compute in Hto. discriminate.
Qed.

(** The amended [C5] on that input, and on a click over the
    evaluation bar. *)
Lemma e4_selected_from_idle :
  let st := initial_state in
  let st' := handle_event st (click e4) in
  let st'' := handle_event st (MOUSEBUTTONDOWN (20, 300)) in
  (Idle st
   /\ click_square (white_at_bottom st) (square_centre true e4) = Some e4
   /\ click_square (white_at_bottom st) (20, 300) = None)
  /\ piece_at (board st) e4 = None
  /\ st' = set_selected_square st (Some e4)
  /\ PieceSelected e4 st'
  /\ st'' = st
  /\ Idle st''.
Proof.
  intros st st' st''.
  assert (H1 : Idle st) by (split; reflexivity).
  assert (H2 : click_square (white_at_bottom st) (square_centre true e4)
               = Some e4) by (vm_compute; reflexivity).
  assert (H3 : click_square (white_at_bottom st) (20, 300) = None)
    by (vm_compute; reflexivity).
  pose proof (idle_click_selects st (square_centre true e4) H1) as Hon.
  pose proof (idle_click_selects st (20, 300) H1) as Hoff.
  cbv zeta in Hon, Hoff. rewrite H2 in Hon. rewrite H3 in Hoff.
  destruct Hon as (E & Hsel & _). destruct Hoff as (E' & Hidle').
  split; [split; [exact H1|split; [exact H2|exact H3]]|].
  split; [vm_compute; reflexivity|].
  split; [exact E|]. split; [exact Hsel|]. split; [exact E'|exact Hidle'].
Defined.



(** [C4] as stated fails: the engine has died, the first analysis
    raises, the program ends, and [engine.quit()] was never called; the
    same with the user's quit among the events of that frame. *)
Lemma crash_skips_engine_quit :
  ~ (forall evs : list Event,
       let r := main [dead_engine_frame evs 1] in
       termination r <> StillRunning -> quit_calls r = 1%nat).
Proof.
  intros H. specialize (H [QUIT]). cbv zeta in H.
  assert (E : quit_calls (main [dead_engine_frame [QUIT] 1]) = 0%nat)
    by (vm_compute; reflexivity).
  rewrite E in H.
  assert (T : termination (main [dead_engine_frame [QUIT] 1]) = Crashed)
    by (vm_compute; reflexivity).
  rewrite T in H. discriminate H. discriminate.
Qed.

(** [C1] fails on the code.  From the start the clicks e2 and e8 open
    the dialog with e2 still selected.  The next click, at (500, 470),
    is on no icon: it is below the dialog.  [handle_promotion_click]
    returns false for it, the loop goes on to the board handling, which
    reads it as a click on e4 and plays e2e4: the board has changed and
    the selection is gone, while the dialog is still open on the pending
    move e2e8. *)
Theorem click_below_dialog_plays_e2e4 :
  let st := handle_events initial_state [click e2; click e8] in
  let st' := handle_event st (MOUSEBUTTONDOWN e4_below_dialog) in
  PromotionPending (mkMove e2 e8 None) st
  /\ selected_square st = Some e2
  /\ (forall i : Z, ~ on_icon i e4_below_dialog)
  /\ snd (handle_promotion_click st e4_below_dialog) = false
  /\ board st' = push (board st) (mkMove e2 e4 None)
  /\ piece_at (board st) e4 = None
  /\ piece_at (board st') e4 = Some (mkPiece PAWN WHITE)
  /\ selected_square st' = None
  /\ show_promotion_dialog st' = true
  /\ promotion_pending st' = Some (mkMove e2 e8 None).
Proof.
  intros st st'.
  split; [vm_compute; repeat split; reflexivity|].
  split; [vm_compute; reflexivity|].
  split.
  { intros i (_ & _ & Hy). vm_compute in Hy. destruct Hy as (_ & Hy).
    discriminate Hy. }
  repeat split; vm_compute; reflexivity.
Qed.

(** [C3] fails on the code.  Eight plies are played and the engine
    suggests a7xb8=Q, which is legal then.  In the next frames the user
    plays it through the dialog.  [handle_promotion_click] pushes the
    move and leaves [best_move] as it was: at the end of the last frame
    [best_move] is still a7xb8=Q, which is not legal in the position
    reached, where Black is to move. *)
Theorem promotion_leaves_best_move :
  let before := main frames_before_promotion in
  let after := main promotion_frames in
  best_move (final before) = Some a7b8q
  /\ is_legal (board (final before)) a7b8q = true
  /\ termination after = StillRunning
  /\ board (final after) = push (board (final before)) a7b8q
  /\ show_promotion_dialog (final after) = false
  /\ best_move (final after) = Some a7b8q
  /\ is_legal (board (final after)) a7b8q = false.
Proof.
  intros before after. repeat split; vm_compute; reflexivity.
Qed.

(** [C6] fails on the code.  After eight plies the clicks a7 and b8
    open the dialog on a7xb8; a click on a1, outside the dialog, falls
    through to the board handling and clears the selection while the
    dialog stays open.  The next click, at (500, 470), is outside the
    dialog too: it selects e4, an empty square.  The click on the queen
    icon that follows is handled by the dialog, which is still about
    a7xb8: the move is pushed.  So an interaction begun by selecting a
    square with no piece on it has mutated the board. *)
Theorem empty_selection_then_icon_pushes :
  let st := handle_events initial_state
              (eight_plies ++ [click a7; click b8; click a1]) in
  let st1 := handle_event st (MOUSEBUTTONDOWN e4_below_dialog) in
  let st2 := handle_event st1 (click_icon 0) in
  selected_square st = None
  /\ show_promotion_dialog st = true
  /\ promotion_pending st = Some (mkMove a7 b8 None)
  /\ click_square (white_at_bottom st) e4_below_dialog = Some e4
  /\ piece_at (board st) e4 = None
  /\ own_piece (board st) e4 = false
  /\ selected_square st1 = Some e4
  /\ board st1 = board st
  /\ board st2 = push (board st) a7b8q
  /\ piece_at (board st) b8 = Some (mkPiece ROOK BLACK)
  /\ piece_at (board st2) b8 = Some (mkPiece QUEEN WHITE).
Proof.
  intros st st1 st2. repeat split; vm_compute; reflexivity.
Qed.

(** A selection made in [Idle].  After seven plies Black is to move and a
    White pawn stands on a7.  The user selects that pawn and clicks a8:
    the dialog opens.  The click on the queen icon that follows pushes
    nothing. *)
Lemma foreign_pawn_a7_a8 :
  let st := handle_events initial_state seven_plies in
  let pos := square_centre true a7 in
  let evs := [click a8; click_icon 0] in
  (Idle st
   /\ click_square (white_at_bottom st) pos = Some a7
   /\ own_piece (board st) a7 = false)
  /\ show_promotion_dialog
       (handle_events st [MOUSEBUTTONDOWN pos; click a8]) = true
  /\ board (handle_events st (MOUSEBUTTONDOWN pos :: evs)) = board st.
Proof.
  intros st pos evs.
  assert (H1 : Idle st) by (vm_compute; split; reflexivity).
  assert (H2 : click_square (white_at_bottom st) pos = Some a7)
    by (vm_compute; reflexivity).
  assert (H3 : own_piece (board st) a7 = false) by (vm_compute; reflexivity).
  assert (H4 : forall n : nat, (n < length evs)%nat ->
            selected_square
              (handle_events st (MOUSEBUTTONDOWN pos :: firstn n evs)) <> None).
  { intros [|[|n]] Hn.
    - vm_compute. discriminate.
    - vm_compute. discriminate.
    - simpl in Hn. lia. }
  split; [repeat split; assumption|].
  split; [vm_compute; reflexivity|].
  exact (foreign_selection_never_moves standard_legal_moves_own
           st pos a7 evs H1 H2 H3 H4).
Defined.

(** * Further properties of the program *)

Section Screen.

(** ** Pixels and squares *)

Lemma in_range_square (sq : Square) :
  in_range sq ->
  0 <= square_file sq < 8 /\ 0 <= square_rank sq < 8
  /\ sq = square (square_file sq) (square_rank sq).
Proof.
  unfold in_range. intros H.
  rewrite square_file_mod, square_rank_div. unfold square.
  pose proof (Z.div_mod sq 8 ltac:(lia)) as E.
  pose proof (Z.mod_pos_bound sq 8 ltac:(lia)) as B.
  assert (0 <= sq / 8 < 8)
    by (split; [apply Z.div_pos; lia|apply Z.div_lt_upper_bound; lia]).
  lia.
Qed.

Lemma div_100_eq (x k : Z) : x / 100 = k <-> 100 * k <= x < 100 * k + 100.
Proof.
  pose proof (Z.div_mod x 100 ltac:(lia)) as E.
  pose proof (Z.mod_pos_bound x 100 ltac:(lia)) as B.
  split; intros H.
  - subst k. lia.
  - symmetry. apply Z.div_unique with (r := x - 100 * k); lia.
Qed.

(** The file and rank computed for a pointer position are [col] and
    [row] exactly when the pointer is on the cell where the renderer
    draws the square of that file and rank. *)
Lemma click_col_row_cell (wab : bool) (pos : Z * Z) (col row : Z) :
  0 <= col < 8 -> 0 <= row < 8 ->
  (click_col wab pos = col /\ click_row wab pos = row)
  <-> in_cell (square_origin wab (square col row)) pos.
Proof.
  intros Hc Hr.
  unfold in_cell, square_origin, click_col, click_row.
  rewrite square_file_square, square_rank_square by assumption.
  unfold EVAL_BAR_WIDTH. change SQUARE_SIZE with 100. cbn [fst snd].
  pose proof (div_100_eq (fst pos - 50)) as Dx.
  pose proof (div_100_eq (snd pos)) as Dy.
  destruct wab; cbn [negb].
  - pose proof (Dx col) as Dx'. pose proof (Dy (7 - row)) as Dy'.
    split; intros H.
    + assert ((fst pos - 50) / 100 = col) by lia.
      assert (snd pos / 100 = 7 - row) by lia. lia.
    + assert ((fst pos - 50) / 100 = col) by (apply Dx'; lia).
      assert (snd pos / 100 = 7 - row) by (apply Dy'; lia). lia.
  - pose proof (Dx (7 - col)) as Dx'. pose proof (Dy row) as Dy'.
    split; intros H.
    + assert ((fst pos - 50) / 100 = 7 - col) by lia.
      assert (snd pos / 100 = row) by lia. lia.
    + assert ((fst pos - 50) / 100 = 7 - col) by (apply Dx'; lia).
      assert (snd pos / 100 = row) by (apply Dy'; lia). lia.
Qed.

Lemma in_cell_click (wab : bool) (sq : Square) (pos : Z * Z) :
  in_range sq ->
  in_cell (square_origin wab sq) pos -> click_square wab pos = Some sq.
Proof.
  intros Hsq Hcell. destruct (in_range_square sq Hsq) as (Hf & Hr & E).
  rewrite E in Hcell.
  apply (click_col_row_cell wab pos _ _ Hf Hr) in Hcell as (Hc & Hrow).
  unfold click_square. rewrite Hc, Hrow.
  replace ((0 <=? square_file sq) && (square_file sq <? 8)
           && (0 <=? square_rank sq) && (square_rank sq <? 8)) with true
    by (symmetry; rewrite !andb_true_iff, !Z.leb_le, !Z.ltb_lt; lia).
  now rewrite <- E.
Qed.

(** [X1]  The click mapping inverts the renderer's placement: for a
    square of the board and either orientation, a pointer position is
    read as that square exactly when it lies on the cell of side
    [SQUARE_SIZE] at which [draw_pieces] and [highlight_moves] draw that
    square. *)
Theorem click_square_iff_in_cell (wab : bool) (sq : Square) (pos : Z * Z) :
  in_range sq ->
  (click_square wab pos = Some sq <-> in_cell (square_origin wab sq) pos).
Proof.
  intros Hsq. destruct (in_range_square sq Hsq) as (Hf & Hr & E).
  split.
  - intros H. destruct (click_square_Some _ _ _ H) as (Hc & Hr' & E').
    rewrite E. apply (click_col_row_cell wab pos _ _ Hf Hr).
    rewrite E'.
    now rewrite square_file_square, square_rank_square by assumption.
  - now apply in_cell_click.
Qed.

(** [X2]  Flipping the board turns it by half a turn under the pointer:
    the same pointer position is read as the opposite square, [63 - sq],
    and a position off the board stays off the board. *)
Theorem click_square_flipped (wab : bool) (pos : Z * Z) :
  click_square (negb wab) pos =
  match click_square wab pos with
  | Some sq => Some (63 - sq)
  | None => None
  end.
Proof.
  assert (Hc : click_col (negb wab) pos = 7 - click_col wab pos)
    by (unfold click_col; destruct wab; cbn [negb]; lia).
  assert (Hr : click_row (negb wab) pos = 7 - click_row wab pos)
    by (unfold click_row; destruct wab; cbn [negb]; lia).
  unfold click_square. rewrite Hc, Hr.
  destruct (Z.leb_spec 0 (click_col wab pos)),
           (Z.ltb_spec (click_col wab pos) 8),
           (Z.leb_spec 0 (click_row wab pos)),
           (Z.ltb_spec (click_row wab pos) 8);
    destruct (Z.leb_spec 0 (7 - click_col wab pos)),
             (Z.ltb_spec (7 - click_col wab pos) 8),
             (Z.leb_spec 0 (7 - click_row wab pos)),
             (Z.ltb_spec (7 - click_row wab pos) 8);
    cbn [andb]; try lia; try reflexivity.
  f_equal. unfold square. lia.
Qed.

End Screen.

Section Interaction.

Context {R : ChessRules}.

(** ** Keys *)

(** [X3]  P and M are toggles.  One press of P negates
    [white_at_bottom], one press of M negates [aggressive_mate], and
    neither touches any other global; so pressing P twice, or M twice,
    gives back the state as it was. *)
Theorem toggle_keys_twice (st : State) :
  let p := handle_event st (KEYDOWN K_p) in
  let m := handle_event st (KEYDOWN K_m) in
  (white_at_bottom p = negb (white_at_bottom st)
   /\ aggressive_mate p = aggressive_mate st
   /\ board p = board st
   /\ selected_square p = selected_square st
   /\ promotion_pending p = promotion_pending st
   /\ show_promotion_dialog p = show_promotion_dialog st
   /\ running p = running st
   /\ last_analysis_time p = last_analysis_time st
   /\ best_move p = best_move st
   /\ evaluation p = evaluation st)
  /\ (aggressive_mate m = negb (aggressive_mate st)
      /\ white_at_bottom m = white_at_bottom st
      /\ board m = board st
      /\ selected_square m = selected_square st
      /\ promotion_pending m = promotion_pending st
      /\ show_promotion_dialog m = show_promotion_dialog st
      /\ running m = running st
      /\ last_analysis_time m = last_analysis_time st
      /\ best_move m = best_move st
      /\ evaluation m = evaluation st)
  /\ handle_events st [KEYDOWN K_p; KEYDOWN K_p] = st
  /\ handle_events st [KEYDOWN K_m; KEYDOWN K_m] = st.
Proof.
  split; [repeat split|]. split; [repeat split|].
  destruct st; unfold handle_events; simpl;
    unfold set_white_at_bottom, set_aggressive_mate; simpl.
  rewrite !negb_involutive. split; reflexivity.
Qed.

(** [X4]  Escape ends whatever interaction is going on: in every state
    it leads to [Idle]; it closes an open dialog together with its
    pending move, and leaves the board, the suggestion and the flags
    alone.  Pressing it again changes nothing more. *)
Theorem escape_returns_to_idle (st : State) :
  let st' := handle_event st (KEYDOWN K_ESCAPE) in
  Idle st'
  /\ (show_promotion_dialog st = true -> promotion_pending st' = None)
  /\ board st' = board st
  /\ best_move st' = best_move st
  /\ white_at_bottom st' = white_at_bottom st
  /\ aggressive_mate st' = aggressive_mate st
  /\ running st' = running st
  /\ handle_event st' (KEYDOWN K_ESCAPE) = st'.
Proof.
  unfold Idle. simpl.
  destruct (show_promotion_dialog st) eqn:E; simpl; rewrite ?E; simpl;
    repeat split; try reflexivity; try discriminate.
Qed.

(** ** The board *)

(** [X5]  The board changes only by a legal move: an event leaves the
    board as it is or pushes one move that is legal on the board before
    it, and only a pointer click can push. *)
Theorem only_legal_moves_pushed (st : State) (e : Event) :
  match e with
  | MOUSEBUTTONDOWN _ =>
      board (handle_event st e) = board st
      \/ exists m : Move,
           is_legal (board st) m = true
           /\ board (handle_event st e) = push (board st) m
  | _ => board (handle_event st e) = board st
  end.
Proof.
  assert (Hclick : forall pos,
             board (board_click st pos) = board st
             \/ exists m : Move,
                  is_legal (board st) m = true
                  /\ board (board_click st pos) = push (board st) m).
  { intros pos. unfold board_click.
    destruct (click_square (white_at_bottom st) pos) as [sq|]; [|now left].
    destruct (selected_square st) as [sel|]; [|now left].
    destruct (is_promotion_move (board st) (mkMove sel sq None)); [now left|].
    destruct (is_legal (board st) (mkMove sel sq None)) eqn:L; [|now left].
    right. now exists (mkMove sel sq None). }
  destruct e as [|pos|[| | |]|]; simpl; try reflexivity.
  - unfold mouse_down.
    destruct (show_promotion_dialog st); [|apply Hclick].
    destruct (handle_promotion_click_cases st pos) as [E|(m & kind & _ & E)];
      rewrite E; [apply Hclick|].
    destruct (is_legal (board st) _) eqn:L; [|now left].
    right. eexists. split; [exact L|reflexivity].
  - destruct (show_promotion_dialog st); reflexivity.
Qed.

(** ** The dialog *)

(** [X6]  [handle_promotion_click] handles a click, and then closes the
    dialog, exactly when the dialog is open on a pending move that
    counts as true and the pointer has 225 <= x < 625 and
    350 <= y <= 450.  So the row of pixels y = 450 just below the icons
    still chooses a piece, and x = 625, which passes the bounds test of
    line 261, is turned down by the index test of line 268. *)
Theorem promotion_click_handled_iff (st : State) (pos : Z * Z) :
  snd (handle_promotion_click st pos) = true
  <-> show_promotion_dialog st = true
      /\ truthy (promotion_pending st) = true
      /\ 225 <= fst pos < 625
      /\ 350 <= snd pos <= 450.
Proof.
  unfold handle_promotion_click.
  destruct constants as (-> & -> & -> & -> & ->).
  pose proof (div_100_eq (fst pos - 225)) as D.
  destruct (show_promotion_dialog st); cbn [negb orb];
    [|simpl; split; [discriminate|intros (? & _); discriminate]].
  destruct (promotion_pending st) as [m|]; cbn [truthy];
    [|simpl; split; [discriminate|intros (_ & ? & _); discriminate]].
  destruct (Move_bool m); cbn [negb];
    [|simpl; split; [discriminate|intros (_ & ? & _); discriminate]].
  change (Z.of_nat (length promotion_pieces)) with 4.
  destruct (Z.leb_spec 225 (fst pos)), (Z.leb_spec (fst pos) (225 + 400)),
           (Z.leb_spec 350 (snd pos)), (Z.leb_spec (snd pos) (350 + 100));
    cbn [andb snd];
    try (split; [discriminate|intros (_ & _ & ? & ?); lia]).
  destruct (Z.leb_spec 0 ((fst pos - 225) / 100)),
           (Z.ltb_spec ((fst pos - 225) / 100) 4); cbn [andb snd].
  - split; [intros _|reflexivity]. repeat split; try lia.
    destruct (Z.eq_dec (fst pos) 625) as [E|]; [|lia].
    rewrite E in *. vm_compute in H4. discriminate.
  - split; [discriminate|intros (_ & _ & Hx & _)]. exfalso.
    assert ((fst pos - 225) / 100 <= 3); [|lia].
    apply Z.lt_succ_r. apply Z.div_lt_upper_bound; lia.
  - split; [discriminate|intros (_ & _ & Hx & _)]. exfalso.
    assert (0 <= (fst pos - 225) / 100) by (apply Z.div_pos; lia). lia.
  - split; [discriminate|intros (_ & _ & Hx & _)]. exfalso.
    assert (0 <= (fst pos - 225) / 100) by (apply Z.div_pos; lia). lia.
Qed.

End Interaction.

Section Loop.

Context {R : ChessRules}.

(** ** The dialog and its pending move *)

Lemma dialog_consistent_same (st st' : State) :
  show_promotion_dialog st' = show_promotion_dialog st ->
  promotion_pending st' = promotion_pending st ->
  dialog_consistent st -> dialog_consistent st'.
Proof. unfold dialog_consistent. intros -> ->. trivial. Qed.

Lemma dialog_consistent_reset (st : State) :
  dialog_consistent (reset_promotion_state st).
Proof.
  split; simpl.
  - split; [discriminate|congruence].
  - discriminate.
Qed.

Lemma dialog_consistent_step (st : State) (e : Event) :
  dialog_consistent st -> dialog_consistent (handle_event st e).
Proof.
  intros H.
  assert (Hclick : forall pos, dialog_consistent (board_click st pos)).
  { intros pos. unfold board_click.
    destruct (click_square (white_at_bottom st) pos) as [sq|]; [|exact H].
    destruct (selected_square st) as [sel|];
      [|now apply (dialog_consistent_same st)].
    destruct (is_promotion_move (board st) (mkMove sel sq None)).
    - split; simpl.
      + split; [discriminate|reflexivity].
      + now intros m [= <-].
    - destruct (is_legal (board st) (mkMove sel sq None));
        now apply (dialog_consistent_same st). }
  destruct e as [|pos|[| | |]|]; simpl;
    try (now apply (dialog_consistent_same st)).
  - unfold mouse_down. destruct (show_promotion_dialog st); [|apply Hclick].
    destruct (handle_promotion_click_cases st pos) as [E|(m & kind & _ & E)];
      rewrite E; [apply Hclick|apply dialog_consistent_reset].
  - destruct (show_promotion_dialog st); [apply dialog_consistent_reset|].
    now apply (dialog_consistent_same st).
Qed.

Lemma dialog_consistent_events (events : list Event) :
  forall st : State,
    dialog_consistent st -> dialog_consistent (handle_events st events).
Proof.
  induction events as [|e events IH]; intros st H; simpl; [exact H|].
  apply IH, dialog_consistent_step, H.
Qed.

(** ** The periodic analysis *)

Lemma analysis_dialog_fields (st st' : State) (f : Frame) :
  analysis st f = Returns st' ->
  promotion_pending st' = promotion_pending st
  /\ show_promotion_dialog st' = show_promotion_dialog st.
Proof.
  unfold analysis.
  destruct (Qlt_le_dec _ _); [|intros [= <-]; split; reflexivity].
  destruct (analyse_reply f); [|discriminate].
  destruct (get_and_highlight_best_move _ f); [|discriminate].
  intros [= <-]. split; reflexivity.
Qed.

(** [X8]  The analysis leaves the interaction alone: when it returns,
    the board, the selection, the dialog with its pending move, the two
    flags and [running] are as before; only [evaluation], [best_move]
    and [last_analysis_time] can differ. *)
Theorem analysis_keeps_interaction (st st' : State) (f : Frame) :
  analysis st f = Returns st' ->
  board st' = board st
  /\ selected_square st' = selected_square st
  /\ promotion_pending st' = promotion_pending st
  /\ show_promotion_dialog st' = show_promotion_dialog st
  /\ white_at_bottom st' = white_at_bottom st
  /\ aggressive_mate st' = aggressive_mate st
  /\ running st' = running st.
Proof.
  unfold analysis.
  destruct (Qlt_le_dec _ _); [|intros [= <-]; repeat split].
  destruct (analyse_reply f); [|discriminate].
  destruct (get_and_highlight_best_move _ f); [|discriminate].
  intros [= <-]. repeat split.
Qed.

Lemma dialog_consistent_loop (frames : list Frame) :
  forall (st : State) (calls : list EngineCall),
    dialog_consistent st ->
    dialog_consistent (final (main_loop st calls frames)).
Proof.
  induction frames as [|f frames IH]; intros st calls H; simpl; [exact H|].
  pose proof (dialog_consistent_events (events f) st H) as He.
  destruct (analysis (handle_events st (events f)) f) as [st'|] eqn:A;
    [|apply (dialog_consistent_same (handle_events st (events f)));
      [unfold crash_state; now destruct (analyse_reply f)..|exact He]].
  destruct (analysis_dialog_fields _ _ _ A) as (Hp & Hs).
  pose proof (dialog_consistent_same _ st' Hs Hp He) as H'.
  destruct (running st'); [now apply IH|exact H'].
Qed.

(** [X7]  In every state a run of the program reaches, whatever the
    frames, the dialog is open exactly when a pending move is stored,
    and a stored pending move has no promotion piece yet. *)
Theorem dialog_open_iff_pending (frames : list Frame) :
  dialog_consistent (final (main frames)).
Proof.
  apply dialog_consistent_loop. split; simpl.
  - split; [discriminate|congruence].
  - discriminate.
Qed.

(** [X9]  The engine is asked at most once in a tenth of a second: when
    an analysis was due and has returned, it has recorded its time, and
    a frame whose clock is no more than 0.1 later runs no analysis, so
    it returns the state as it is even if the engine is dead. *)
Theorem analysis_throttled (st st' : State) (f f' : Frame) :
  analysis_due st f ->
  analysis st f = Returns st' ->
  (current_time f' - current_time f <= 1 # 10)%Q ->
  last_analysis_time st' = current_time f
  /\ analysis st' f' = Returns st'.
Proof.
  unfold analysis_due, analysis. intros Hdue.
  destruct (Qlt_le_dec _ _) as [_|Hle];
    [|exfalso; exact (Qlt_not_le _ _ Hdue Hle)].
  destruct (analyse_reply f); [|discriminate].
  destruct (get_and_highlight_best_move _ f); [|discriminate].
  intros [= <-] Hclose. simpl. split; [reflexivity|].
  destruct (Qlt_le_dec _ _) as [Hlt|_]; [|reflexivity].
  exfalso. exact (Qlt_not_le _ _ Hlt Hclose).
Qed.

(** [X10]  A frame's analysis raises exactly when it is due and a call
    it really makes raises: [engine.analyse]; or, with the mate search
    on, the first [engine.play]; or the second [engine.play], which is
    made when the mate search is off or has found no mate move. *)
Theorem analysis_raises_iff (st : State) (f : Frame) :
  analysis st f = Raises
  <-> analysis_due st f
      /\ (analyse_reply f = Raises
          \/ (analyse_reply f <> Raises /\ aggressive_mate st = true
              /\ mate_reply f = Raises)
          \/ (analyse_reply f <> Raises /\ play_reply f = Raises
              /\ (aggressive_mate st = false
                  \/ exists result : PlayResult,
                       mate_reply f = Returns result
                       /\ truthy (if score_is_mate result
                                  then move result else None) = false))).
Proof.
  unfold analysis, analysis_due, get_and_highlight_best_move.
  destruct (Qlt_le_dec _ _) as [Hlt|Hle].
  - destruct (analyse_reply f) as [cp|]; simpl.
    + destruct (aggressive_mate st).
      * destruct (mate_reply f) as [result|].
        -- destruct (truthy _) eqn:T.
           ++ split; [discriminate|].
              intros (_ & [?|[(_ & _ & ?)|(_ & _ & [?|(r & [= <-] & ?)])]]);
                congruence.
           ++ destruct (play_reply f); (split; [|try reflexivity]);
                try discriminate.
              ** intros (_ & [?|[(_ & _ & ?)|(_ & ? & _)]]); congruence.
              ** intros _. split; [exact Hlt|]. right. right.
                 split; [discriminate|]. split; [reflexivity|].
                 right. now exists result.
        -- split; [intros _|reflexivity]. split; [exact Hlt|].
           right. left. split; [discriminate|]. split; reflexivity.
      * destruct (play_reply f); (split; [|try reflexivity]);
          try discriminate.
        -- intros (_ & [?|[(_ & ? & _)|(_ & ? & _)]]); congruence.
        -- intros _. split; [exact Hlt|]. right. right.
           split; [discriminate|]. split; [reflexivity|]. now left.
    + split; [intros _|reflexivity]. split; [exact Hlt|]. now left.
  - split; [discriminate|].
    intros (Hdue & _). exfalso. exact (Qlt_not_le _ _ Hdue Hle).
Qed.

(** ** The loop *)

(** [X17]  The user's quit ends the run after the frame it arrives
    in: the events that follow it in that frame are still handled and
    the frame's analysis is still run; if that analysis returns, the
    loop exits, [engine.quit()] is called once, and later frames are
    never looked at. *)
Theorem quit_ends_run (st st' : State) (calls : list EngineCall)
    (f : Frame) (more : list Frame) :
  In QUIT (events f) ->
  analysis (handle_events st (events f)) f = Returns st' ->
  main_loop st calls (f :: more) =
  mkRun ExitedNormally st' (calls ++ [ENGINE_QUIT])
  /\ running st' = false.
Proof.
  intros Hq Ha. split; [now apply user_quit_exits|].
  rewrite (analysis_keeps_running _ _ _ Ha). apply quit_event_stops. now left.
Qed.

End Loop.

Section Drawing.

Context {R : ChessRules}.

Variable pieces : PieceType -> Color -> bool.

(** ** What is drawn and what a click on it does *)

Lemma In_range (n : nat) (k : Z) : In k (range n) <-> 0 <= k < Z.of_nat n.
Proof.
  unfold range. rewrite in_map_iff. split.
  - intros (x & <- & Hx). apply in_seq in Hx. lia.
  - intros H. exists (Z.to_nat k). split; [lia|]. apply in_seq. lia.
Qed.

(** [X12]  The board is drawn with a1 dark, in both orientations: the
    one rectangle [draw_board] fills at the cell of a square is dark
    brown when file plus rank is even and light brown when it is odd. *)
Theorem board_cell_colour (wab : bool) (sq : Square) (c : RGB) :
  in_range sq ->
  (In (FillRect c (fst (square_origin wab sq), snd (square_origin wab sq),
                   SQUARE_SIZE, SQUARE_SIZE)) draw_board
   <-> c = if (square_file sq + square_rank sq) mod 2 =? 0
           then DARK_BROWN else LIGHT_BROWN).
Proof.
  intros Hsq. destruct (in_range_square sq Hsq) as (Hf & Hr & _).
  unfold draw_board, square_origin, EVAL_BAR_WIDTH.
  change SQUARE_SIZE with 100. cbn [fst snd].
  set (f := square_file sq) in *. set (r := square_rank sq) in *.
  rewrite in_flat_map.
  destruct wab; cbn [negb]; (split; [intros (row & Hrow & Hin)|intros ->]).
  - apply in_map_iff in Hin as (col & E & Hcol).
    apply In_range in Hrow, Hcol.
    assert (Ex : 50 + col * 100 = 50 + f * 100) by congruence.
    assert (Ey : row * 100 = (7 - r) * 100) by congruence.
    assert (Ec : c = if (row + col) mod 2 =? 0
                     then LIGHT_BROWN else DARK_BROWN) by congruence.
    rewrite Ec.
    destruct (Z.eqb_spec ((row + col) mod 2) 0),
             (Z.eqb_spec ((f + r) mod 2) 0);
      try reflexivity; exfalso; Z.div_mod_to_equations; lia.
  - exists (7 - r). split; [apply In_range; simpl Z.of_nat; lia|].
    apply in_map_iff. exists f.
    split; [|apply In_range; simpl Z.of_nat; lia]. f_equal.
    destruct (Z.eqb_spec ((7 - r + f) mod 2) 0),
             (Z.eqb_spec ((f + r) mod 2) 0);
      try reflexivity; exfalso; Z.div_mod_to_equations; lia.
  - apply in_map_iff in Hin as (col & E & Hcol).
    apply In_range in Hrow, Hcol.
    assert (Ex : 50 + col * 100 = 50 + (7 - f) * 100) by congruence.
    assert (Ey : row * 100 = (7 - (7 - r)) * 100) by congruence.
    assert (Ec : c = if (row + col) mod 2 =? 0
                     then LIGHT_BROWN else DARK_BROWN) by congruence.
    rewrite Ec.
    destruct (Z.eqb_spec ((row + col) mod 2) 0),
             (Z.eqb_spec ((f + r) mod 2) 0);
      try reflexivity; exfalso; Z.div_mod_to_equations; lia.
  - exists (7 - (7 - r)). split; [apply In_range; simpl Z.of_nat; lia|].
    apply in_map_iff. exists (7 - f).
    split; [|apply In_range; simpl Z.of_nat; lia]. f_equal.
    destruct (Z.eqb_spec ((7 - (7 - r) + (7 - f)) mod 2) 0),
             (Z.eqb_spec ((f + r) mod 2) 0);
      try reflexivity; exfalso; Z.div_mod_to_equations; lia.
Qed.

(** [X13]  Whatever integer line 182 computes, the evaluation bar is
    filled exactly: the white part has a height between 0 and [HEIGHT],
    the black part lies above it from the top of the window down to
    where the white part begins, and the two heights add up to
    [HEIGHT].  A value below 0 gives an all black bar, a value above
    [HEIGHT] an all white one. *)
Theorem eval_bar_filled (raw : Z) :
  exists white_height black_height : Z,
    draw_eval_bar raw =
    [ FillRect RGB_WHITE (0, black_height, EVAL_BAR_WIDTH, white_height);
      FillRect RGB_BLACK (0, 0, EVAL_BAR_WIDTH, black_height) ]
    /\ 0 <= white_height <= HEIGHT
    /\ 0 <= black_height <= HEIGHT
    /\ black_height + white_height = HEIGHT
    /\ white_height = (if raw <? 0 then 0
                       else if HEIGHT <? raw then HEIGHT else raw).
Proof.
  unfold draw_eval_bar, HEIGHT. eexists _, _. split; [reflexivity|].
  destruct (Z.ltb_spec raw 0), (Z.ltb_spec 800 raw); lia.
Qed.

(** [X14]  Clicking a piece selects the square it stands on: in [Idle],
    a click anywhere on the image [draw_pieces] has drawn for a piece
    selects the square of the board that is drawn at that place and
    holds that piece, in either orientation. *)
Theorem click_on_drawn_piece (st : State) (kind : PieceType) (side : Color)
    (x y : Z) (pos : Z * Z) :
  Idle st ->
  In (Blit kind side x y) (draw_pieces pieces st) ->
  in_cell (x, y) pos ->
  exists sq : Square,
    in_range sq
    /\ square_origin (white_at_bottom st) sq = (x, y)
    /\ piece_at (board st) sq = Some (mkPiece kind side)
    /\ handle_event st (MOUSEBUTTONDOWN pos) = set_selected_square st (Some sq).
Proof.
  intros Hidle Hin Hcell. unfold draw_pieces in Hin.
  apply in_flat_map in Hin as (sq & Hsq & Hin).
  apply In_range in Hsq. exists sq.
  destruct (piece_at (board st) sq) as [[k c]|]; [|destruct Hin].
  cbn [piece_type color] in Hin.
  destruct (pieces k c); [|destruct Hin].
  destruct Hin as [E|[]].
  assert (Ek : k = kind) by congruence.
  assert (Es : c = side) by congruence.
  assert (Ex : fst (square_origin (white_at_bottom st) sq) = x) by congruence.
  assert (Ey : snd (square_origin (white_at_bottom st) sq) = y) by congruence.
  subst k c. split; [exact Hsq|].
  split; [rewrite <- Ex, <- Ey; now destruct (square_origin _ sq)|].
  split; [reflexivity|].
  apply board_click_idle; [assumption|].
  apply in_cell_click; [exact Hsq|].
  unfold in_cell in *. rewrite Ex, Ey. exact Hcell.
Qed.

(** [X15]  Clicking an icon of the dialog chooses the piece shown on
    it: a click anywhere on an image [draw_promotion_dialog] has drawn
    is handled as the choice of that piece kind.  The move tried is the
    pending move with that kind, the image has the colour of the piece
    on the pending move's from-square, and the dialog is closed. *)
Theorem click_on_drawn_icon (st : State) (kind : PieceType) (side : Color)
    (x y : Z) (pos : Z * Z) :
  In (Blit kind side x y) (draw_promotion_dialog pieces st) ->
  in_cell (x, y) pos ->
  exists (m : Move) (piece : Piece),
    promotion_pending st = Some m
    /\ piece_at (board st) (from_square m) = Some piece
    /\ color piece = side
    /\ handle_event st (MOUSEBUTTONDOWN pos) =
       reset_promotion_state
         (if is_legal (board st)
               (mkMove (from_square m) (to_square m) (Some kind))
          then set_board st
                 (push (board st)
                    (mkMove (from_square m) (to_square m) (Some kind)))
          else st).
Proof.
  unfold draw_promotion_dialog. intros Hin Hcell.
  destruct (show_promotion_dialog st) eqn:Hshow; cbn [negb orb] in Hin;
    [|destruct Hin].
  destruct (promotion_pending st) as [m|] eqn:Hp; cbn [truthy] in Hin;
    [|destruct Hin].
  destruct (Move_bool m) eqn:Hb; cbn [negb] in Hin; [|destruct Hin].
  destruct (piece_at (board st) (from_square m)) as [piece|] eqn:Hpc;
    [|destruct Hin].
  exists m, piece.
  apply in_app_or in Hin as [[E|[E|[]]]|Hin]; try discriminate.
  apply in_app_or in Hin as [Hin|[E|[]]]; [|discriminate].
  apply in_flat_map in Hin as (i & Hi & Hin). apply In_range in Hi.
  destruct (pieces _ (color piece)); [|destruct Hin].
  destruct Hin as [E|[]].
  assert (Ek : nth (Z.to_nat i) drawn_icons QUEEN = kind) by congruence.
  assert (Es : color piece = side) by congruence.
  assert (Ex : dialog_x + i * SQUARE_SIZE = x) by congruence.
  assert (Ey : dialog_y = y) by congruence.
  assert (Hicon : on_icon i pos).
  { unfold on_icon, in_cell in *. cbn [fst snd] in Hcell.
    simpl Z.of_nat in Hi. repeat split; lia. }
  split; [reflexivity|]. split; [exact Hpc|]. split; [exact Es|].
  rewrite <- Ek.
  unfold handle_event, mouse_down. rewrite Hshow.
  rewrite (handle_promotion_click_on_icon st m i pos
             (conj Hshow (conj Hp Hb)) Hicon).
  reflexivity.
Qed.

Lemma promotion_icon_click_state (st : State) (m : Move) (i : Z)
    (pos : Z * Z) :
  PromotionPending m st -> on_icon i pos ->
  handle_event st (MOUSEBUTTONDOWN pos) =
  reset_promotion_state
    (if is_legal (board st)
          (mkMove (from_square m) (to_square m)
             (Some (nth (Z.to_nat i) drawn_icons QUEEN)))
     then set_board st
            (push (board st)
               (mkMove (from_square m) (to_square m)
                  (Some (nth (Z.to_nat i) drawn_icons QUEEN))))
     else st).
Proof.
  intros Hpp Hicon. unfold handle_event, mouse_down.
  destruct Hpp as (Hs & Hp & Hb). rewrite Hs.
  rewrite (handle_promotion_click_on_icon st m i pos
             (conj Hs (conj Hp Hb)) Hicon).
  reflexivity.
Qed.

(** [X16]  The dialog can be open and invisible.  When the dialog is
    open on a pending move whose from-square is empty on the board
    (the pawn has moved away), [draw_promotion_dialog] draws nothing,
    and a click where an icon would be is still handled: it closes the
    dialog and clears the selection and the pending move. *)
Theorem invisible_dialog_still_clicks (st : State) (m : Move) (i : Z)
    (pos : Z * Z) :
  PromotionPending m st ->
  piece_at (board st) (from_square m) = None ->
  on_icon i pos ->
  draw_promotion_dialog pieces st = []
  /\ snd (handle_promotion_click st pos) = true
  /\ Idle (handle_event st (MOUSEBUTTONDOWN pos))
  /\ promotion_pending (handle_event st (MOUSEBUTTONDOWN pos)) = None.
Proof.
  intros Hpp Hnone Hicon.
  pose proof (promotion_icon_click_state st m i pos Hpp Hicon) as E.
  pose proof (handle_promotion_click_on_icon st m i pos Hpp Hicon) as Eh.
  cbv zeta in Eh. destruct Hpp as (Hs & Hp & Hb).
  split.
  { unfold draw_promotion_dialog. rewrite Hs, Hp. cbn [negb orb truthy].
    rewrite Hb. cbn [negb]. now rewrite Hnone. }
  split; [now rewrite Eh|].
  rewrite E. unfold Idle. split; [split|]; reflexivity.
Qed.

End Drawing.

(** ** The further properties on concrete inputs *)

(** [X1] on e4, White at the bottom: the cell is at (450, 400). *)
Lemma e4_cell_clicks :
  in_range e4
  /\ (click_square true (500, 470) = Some e4
      <-> in_cell (square_origin true e4) (500, 470)).
Proof.
  assert (H : in_range e4) by (unfold in_range, e4, square; lia).
  split; [exact H|]. exact (click_square_iff_in_cell true e4 (500, 470) H).
Defined.

(** When the call returned, its result is what [result_or] gives. *)
Lemma returned_result {A : Type} (d : A) (r : Reply A) :
  returned r = true -> r = Returns (result_or d r).
Proof. destruct r; simpl; [reflexivity|discriminate]. Qed.

(** [X8]: e2 is selected when the first analysis runs, at time 1, and
    the engine suggests e2e4; the selection and the board are the same
    afterwards. *)
Lemma analysis_with_e2_selected :
  let st := handle_event initial_state (click e2) in
  let f := analysed_frame [] 1 (mkMove e2 e4 None) in
  let st' := result_or st (analysis st f) in
  analysis st f = Returns st'
  /\ best_move st' = Some (mkMove e2 e4 None)
  /\ selected_square st' = Some e2
  /\ board st' = board st.
Proof.
  intros st f st'.
  assert (H : analysis st f = Returns st')
    by (apply returned_result; vm_compute; reflexivity).
  destruct (analysis_keeps_interaction st st' f H) as (Hb & _).
  split; [exact H|]. split; [vm_compute; reflexivity|].
  split; [vm_compute; reflexivity|exact Hb].
Defined.

(** [X9]: ... and a frame at time 1.0625 with a dead engine does not
    ask it. *)
Lemma dead_engine_not_asked :
  let st := handle_event initial_state (click e2) in
  let f := analysed_frame [] 1 (mkMove e2 e4 None) in
  let f' := dead_engine_frame [] (17 # 16) in
  let st' := result_or st (analysis st f) in
  (analysis_due st f /\ analysis st f = Returns st'
   /\ (current_time f' - current_time f <= 1 # 10)%Q)
  /\ last_analysis_time st' = current_time f
  /\ analysis st' f' = Returns st'.
Proof.
  intros st f f' st'.
  assert (H1 : analysis_due st f) by (vm_compute; reflexivity).
  assert (H2 : analysis st f = Returns st')
    by (apply returned_result; vm_compute; reflexivity).
  assert (H3 : (current_time f' - current_time f <= 1 # 10)%Q)
    by (vm_compute; discriminate).
  split; [split; [exact H1|split; [exact H2|exact H3]]|].
  exact (analysis_throttled st st' f f' H1 H2 H3).
Defined.

(** [X12] on a1: the cell at (50, 700) is dark. *)
Lemma a1_is_dark :
  in_range 0
  /\ In (FillRect DARK_BROWN (50, 700, 100, 100)) draw_board.
Proof.
  assert (H : in_range 0) by (unfold in_range; lia).
  split; [exact H|].
  exact (proj2 (board_cell_colour true 0 DARK_BROWN H) eq_refl).
Defined.

(** [X14]: in the starting position a click on the image of the pawn
    of e2, drawn at (450, 600), selects e2. *)
Lemma click_on_e2_pawn :
  let st := initial_state in
  let pieces := fun (_ : PieceType) (_ : Color) => true in
  (Idle st
   /\ In (Blit PAWN WHITE 450 600) (draw_pieces pieces st)
   /\ in_cell (450, 600) (500, 650))
  /\ (exists sq : Square,
        in_range sq
        /\ square_origin (white_at_bottom st) sq = (450, 600)
        /\ piece_at (board st) sq = Some (mkPiece PAWN WHITE)
        /\ handle_event st (MOUSEBUTTONDOWN (500, 650))
           = set_selected_square st (Some sq))
  /\ square_origin (white_at_bottom st) e2 = (450, 600)
  /\ selected_square (handle_event st (MOUSEBUTTONDOWN (500, 650))) = Some e2.
Proof.
  intros st pieces.
  assert (H1 : Idle st) by (split; reflexivity).
  assert (H2 : In (Blit PAWN WHITE 450 600) (draw_pieces pieces st)).
  { vm_compute. repeat (try (left; reflexivity); right). }
  assert (H3 : in_cell (450, 600) (500, 650))
    by (vm_compute; repeat split; discriminate).
  split; [split; [exact H1|split; [exact H2|exact H3]]|].
  split; [exact (click_on_drawn_piece pieces st PAWN WHITE 450 600 (500, 650)
                   H1 H2 H3)|].
  split; vm_compute; reflexivity.
Defined.

(** [X15]: the dialog is open on a7xb8; a click on the queen's image,
    drawn at (225, 350), tries the move with a queen. *)
Lemma click_on_queen_icon :
  let st := handle_events initial_state (eight_plies ++ [click a7; click b8]) in
  let pieces := fun (_ : PieceType) (_ : Color) => true in
  (In (Blit QUEEN WHITE 225 350) (draw_promotion_dialog pieces st)
   /\ in_cell (225, 350) (275, 400))
  /\ exists (m : Move) (piece : Piece),
       promotion_pending st = Some m
       /\ piece_at (board st) (from_square m) = Some piece
       /\ color piece = WHITE
       /\ handle_event st (MOUSEBUTTONDOWN (275, 400)) =
          reset_promotion_state
            (if is_legal (board st)
                  (mkMove (from_square m) (to_square m) (Some QUEEN))
             then set_board st
                    (push (board st)
                       (mkMove (from_square m) (to_square m) (Some QUEEN)))
             else st).
Proof.
  intros st pieces.
  assert (H1 : In (Blit QUEEN WHITE 225 350) (draw_promotion_dialog pieces st)).
  { vm_compute. repeat (try (left; reflexivity); right). }
  assert (H2 : in_cell (225, 350) (275, 400))
    by (vm_compute; repeat split; discriminate).
  split; [split; assumption|].
  exact (click_on_drawn_icon pieces st QUEEN WHITE 225 350 (275, 400) H1 H2).
Defined.

(** [X16]: after the clicks e2, e8 and the click on e4 below the
    dialog, the pawn has left e2 and the dialog is still open on e2e8:
    nothing of it is drawn, and a click where the queen would be closes
    it. *)
Lemma dialog_invisible_after_e2e4 :
  let st := handle_events initial_state
              [click e2; click e8; MOUSEBUTTONDOWN e4_below_dialog] in
  let pieces := fun (_ : PieceType) (_ : Color) => true in
  (PromotionPending (mkMove e2 e8 None) st
   /\ piece_at (board st) (from_square (mkMove e2 e8 None)) = None
   /\ on_icon 0 (icon_centre 0))
  /\ draw_promotion_dialog pieces st = []
  /\ snd (handle_promotion_click st (icon_centre 0)) = true
  /\ Idle (handle_event st (MOUSEBUTTONDOWN (icon_centre 0)))
  /\ promotion_pending (handle_event st (MOUSEBUTTONDOWN (icon_centre 0)))
     = None.
Proof.
  intros st pieces.
  assert (H1 : PromotionPending (mkMove e2 e8 None) st)
    by (vm_compute; repeat split; reflexivity).
  assert (H2 : piece_at (board st) (from_square (mkMove e2 e8 None)) = None)
    by (vm_compute; reflexivity).
  assert (H3 : on_icon 0 (icon_centre 0))
    by (vm_compute; repeat split; discriminate).
  split; [split; [exact H1|split; [exact H2|exact H3]]|].
  exact (invisible_dialog_still_clicks pieces st (mkMove e2 e8 None) 0
           (icon_centre 0) H1 H2 H3).
Defined.

(** [X17]: the window is closed and e2 is clicked in the same frame;
    the click is still handled, the loop exits, and the frame after it,
    with a dead engine, is never run. *)
Lemma quit_then_click :
  let f := analysed_frame [QUIT; click e2] 1 (mkMove e2 e4 None) in
  let st := handle_events initial_state (events f) in
  let st' := result_or st (analysis st f) in
  (In QUIT (events f) /\ analysis st f = Returns st')
  /\ main_loop initial_state [POPEN_UCI] [f; dead_engine_frame [] 2] =
     mkRun ExitedNormally st' ([POPEN_UCI] ++ [ENGINE_QUIT])
  /\ selected_square st' = Some e2
  /\ running st' = false.
Proof.
  intros f st st'.
  assert (H1 : In QUIT (events f)) by (left; reflexivity).
  assert (H2 : analysis st f = Returns st')
    by (apply returned_result; vm_compute; reflexivity).
  destruct (quit_ends_run initial_state st' [POPEN_UCI] f
              [dead_engine_frame [] 2] H1 H2) as (Hrun & Hstop).
  split; [split; assumption|].
  split; [exact Hrun|]. split; [vm_compute; reflexivity|exact Hstop].
Defined.

(** The two forms of castling under the rules of standard chess: after
    1. e4 e5 2. Nf3 Nc6 3. Bc4 Bc5 the king's moves e1g1 and e1h1 are
    both legal and both castle; e1a1 is not legal. *)
Lemma castling_in_both_forms :
  let p := fold_left make_move
             (map (fun ft => mkMove (fst ft) (snd ft) None)
                  [(12, 28); (52, 36); (6, 21); (57, 42); (5, 26); (61, 34)])
             starting_position in
  legal p (mkMove 4 6 None) = true
  /\ legal p (mkMove 4 7 None) = true
  /\ legal p (mkMove 4 0 None) = false
  /\ make_move p (mkMove 4 7 None) = make_move p (mkMove 4 6 None)
  /\ piece_on (make_move p (mkMove 4 6 None)) 6 = Some (mkPiece KING WHITE)
  /\ piece_on (make_move p (mkMove 4 6 None)) 5 = Some (mkPiece ROOK WHITE)
  /\ piece_on (make_move p (mkMove 4 6 None)) 4 = None
  /\ piece_on (make_move p (mkMove 4 6 None)) 7 = None
  /\ castling_rights (make_move p (mkMove 4 6 None)) = [56; 63].
Proof.
  intros p. repeat split; vm_compute; reflexivity.
Qed.
